(** * The instructions view of the web component library

    A shallow embedding of [web/src/instructions-view.ts]: the Lit element
    [InstructionsView], its private method [roundToNearestTen] and its
    [render] method.

    JavaScript Numbers are IEEE 754 binary64 values.  They are modelled by
    the Standard Library's [spec_float] with the operations of [SpecFloat]
    at precision 53 and maximal exponent 1024, so that the division and the
    multiplication of [roundToNearestTen] round exactly as the source's do.
    The trip state is an untyped JavaScript value ([tripState: any]), so
    [render] is modelled over a universe of JavaScript values with the
    language's property access, optional chaining and truthiness. *)

From Stdlib Require Import ZArith Lia Bool List String QArith Qabs Qround Qpower.
From Stdlib Require Import Floats.SpecFloat.
Import ListNotations.

Local Open Scope Z_scope.

#[local] Set Warnings "-register-all".

(** ** Numbers *)

Module Number.

Definition prec : Z := 53.
Definition emax : Z := 1024.

Definition number : Type := spec_float.

(** Well-formed Numbers: a finite value carries its canonical mantissa and
    exponent. *)
Definition valid (x : number) : bool := valid_binary prec emax x.

Definition NaN : number := S754_nan.

(** The Number denoted by the integer [k], with a zero of sign bit [s].
    The conversion is exact for every integer that is a Number. *)
Definition int_num (s : bool) (k : Z) : number := binary_normalize prec emax k 0 s.

(** The Number denoted by an integer literal. *)
Definition of_Z (z : Z) : number := int_num false z.

(** The operators [/] and [*] on Numbers. *)
Definition div (x y : number) : number := SFdiv prec emax x y.
Definition mul (x y : number) : number := SFmul prec emax x y.

(** The comparison [x < y] on Numbers. *)
Definition ltb (x y : number) : bool := SFltb x y.

(** The magnitude of a Number. *)
Definition abs (x : number) : number := SFabs x.

Definition is_finite (x : number) : bool :=
  match x with
  | S754_zero _ | S754_finite _ _ _ => true
  | _ => false
  end.

Definition is_nan (x : number) : bool :=
  match x with
  | S754_nan => true
  | _ => false
  end.

(** The sign bit: [true] for negative values and for [-0]. *)
Definition sign (x : number) : bool :=
  match x with
  | S754_zero s | S754_infinity s | S754_finite s _ _ => s
  | S754_nan => false
  end.

(** The rational value of a finite Number (and [0] for the others). *)
Definition to_Q (x : number) : Q :=
  match x with
  | S754_finite s m e =>
      let q := (inject_Z (Zpos m) * Qpower 2 e)%Q in
      if s then Qopp q else q
  | _ => 0%Q
  end.

(** [Math.round]: a Number that is not finite, or that is integral, is
    returned as it is; otherwise the result is the integral Number closest
    to the argument, the one closer to +Infinity on a tie, and a zero
    result carries the sign of the argument.  For a mantissa [m] and a
    negative exponent [e] the closest integer is
    [floor (m * 2^e + 1/2) = floor ((2 * m + 2^(-e)) / 2^(1 - e))]; a
    canonical mantissa with a non-negative exponent denotes an integer. *)
Definition Math_round (x : number) : number :=
  match x with
  | S754_finite s m e =>
      if 0 <=? e then x
      else int_num s ((2 * cond_Zopp s (Zpos m) + 2 ^ (- e)) / 2 ^ (1 - e))
  | _ => x
  end.

Definition ten : number := of_Z 10.

End Number.

Import Number.

(** ** The distance formatter

    [private roundToNearestTen(meters: number) {
       return Math.round(meters / 10) * 10;
     }] *)
Definition roundToNearestTen (meters : number) : number :=
  mul (Math_round (div meters ten)) ten.

(** ** JavaScript values

    The values a trip state is made of: the primitives and plain data
    objects, an object being the table of its own properties.  The model
    has no functions, arrays, symbols or BigInts. *)
Inductive value : Type :=
| VUndefined
| VNull
| VBoolean (b : bool)
| VNumber (n : number)
| VString (s : string)
| VObject (props : list (string * value)).

Inductive error : Type := TypeError.

(** A completion: the value of an expression, or the exception it throws. *)
Inductive completion (A : Type) : Type :=
| Normal (a : A)
| Throw (e : error).

Arguments Normal {A} a.
Arguments Throw {A} e.

Definition bind {A B : Type} (c : completion A) (k : A -> completion B) : completion B :=
  match c with
  | Normal a => k a
  | Throw e => Throw e
  end.

Notation "x <- c ;; k" := (bind c (fun x => k))
  (at level 61, c at next level, right associativity).

Fixpoint own_property (name : string) (props : list (string * value)) : option value :=
  match props with
  | [] => None
  | (k, v) :: rest => if String.eqb name k then Some v else own_property name rest
  end.

(** The property read [v.name].  Reading a property of [undefined] or
    [null] throws a [TypeError]; a plain object yields its own property or
    [undefined]; a primitive yields [undefined], none of the names that
    [render] reads being a property of the wrapper prototypes. *)
Definition Get (v : value) (name : string) : completion value :=
  match v with
  | VUndefined | VNull => Throw TypeError
  | VObject props =>
      Normal (match own_property name props with
              | Some x => x
              | None => VUndefined
              end)
  | VBoolean _ | VNumber _ | VString _ => Normal VUndefined
  end.

(** The optional chain [v?.name]. *)
Definition OptionalGet (v : value) (name : string) : completion value :=
  match v with
  | VUndefined | VNull => Normal VUndefined
  | _ => Get v name
  end.

(** Truthiness, as tested by [if]. *)
Definition ToBoolean (v : value) : bool :=
  match v with
  | VUndefined | VNull => false
  | VBoolean b => b
  | VNumber (S754_zero _) | VNumber S754_nan => false
  | VNumber _ => true
  | VString EmptyString => false
  | VString _ => true
  | VObject _ => true
  end.

Section Runtime.

(** The conversion of a string to a Number belongs to the language runtime
    and is left abstract. *)
Variable StringToNumber : string -> number.

(** The conversion that [/] applies to its left operand.  A plain object
    converts through its inherited [toString] to a string that is not
    numeric, unless an own property of that name, which is not callable
    here, hides the inherited method. *)
Definition ToNumber (v : value) : completion number :=
  match v with
  | VUndefined => Normal NaN
  | VNull => Normal (S754_zero false)
  | VBoolean b => Normal (if b then of_Z 1 else S754_zero false)
  | VNumber n => Normal n
  | VString s => Normal (StringToNumber s)
  | VObject props =>
      match own_property "toString" props with
      | Some _ => Throw TypeError
      | None => Normal NaN
      end
  end.

(** ** The component

    [@property() tripState: any = null;] *)
Record InstructionsView : Type := { tripState : value }.

Definition new_InstructionsView : InstructionsView := {| tripState := VNull |}.

(** The host pushes a trip state by assigning the property. *)
Definition set_tripState (st : value) (this : InstructionsView) : InstructionsView :=
  {| tripState := st |}.

(** The template that [render] returns, given by the values of its three
    bindings: the [visualInstruction] property of the [maneuver-image]
    element, the content of the first paragraph, and the number that the
    second paragraph shows before the unit [m]. *)
Record TemplateResult : Type := {
  visualInstruction : value;
  instruction : value;
  distance : number
}.

(** [render() {
      if (this.tripState?.Navigating) {
        return html`...
          <maneuver-image .visualInstruction=${this.tripState.Navigating.visualInstruction}>
          <p>${this.tripState.Navigating.visualInstruction.primaryContent.text}</p>
          <p>${this.roundToNearestTen(this.tripState.Navigating.progress.distanceToNextManeuver)}m</p>
        ...`;
      }
    }]
    A call that falls off the end returns [undefined], here [None], and
    Lit then renders nothing. *)
Definition render (this : InstructionsView) : completion (option TemplateResult) :=
  nav <- OptionalGet (tripState this) "Navigating" ;;
  if ToBoolean nav then
    vi <- (n <- Get (tripState this) "Navigating" ;; Get n "visualInstruction") ;;
    text <- (n <- Get (tripState this) "Navigating" ;;
             v <- Get n "visualInstruction" ;;
             c <- Get v "primaryContent" ;;
             Get c "text") ;;
    dist <- (n <- Get (tripState this) "Navigating" ;;
             p <- Get n "progress" ;;
             d <- Get p "distanceToNextManeuver" ;;
             meters <- ToNumber d ;;
             Normal (roundToNearestTen meters)) ;;
    Normal (Some {| visualInstruction := vi; instruction := text; distance := dist |})
  else Normal None.

End Runtime.

(** The [maneuver-image] elements that Lit instantiates for the outcome of
    [render], each with the visual instruction it is given: one for a
    template, none when nothing is rendered. *)
Definition maneuver_images (r : option TemplateResult) : list value :=
  match r with
  | Some t => [visualInstruction t]
  | None => []
  end.

(** ** Auxiliary notions for the analysis of the rounding *)

(** The integer nearest to [N / D], the even one on a tie. *)
Definition rne (N D : Z) : Z :=
  match 2 * (N mod D) ?= D with
  | Lt => N / D
  | Gt => N / D + 1
  | Eq => if Z.even (N / D) then N / D else N / D + 1
  end.

(** A shift record locates the real [N / D]: its mantissa is the floor, its
    round bit says whether the fraction reaches one half, its sticky bit
    whether the fraction is neither zero nor one half. *)
Definition located (N D : Z) (mrs : shr_record) : Prop :=
  shr_m mrs = N / D /\
  shr_r mrs = (D <=? 2 * (N mod D)) /\
  shr_s mrs = negb ((N mod D =? 0) || (2 * (N mod D) =? D)).

(** The second half of [binary_round_aux]: renormalise after the rounding
    and detect overflow. *)
Definition pack (sx : bool) (m e : Z) : spec_float :=
  let '(mrs, e') := shr_fexp prec emax m e loc_Exact in
  match shr_m mrs with
  | Z0 => S754_zero sx
  | Zpos p => if e' <=? emax - prec then S754_finite sx p e' else S754_infinity sx
  | Zneg _ => S754_nan
  end.

(** [int_repr v m e]: the canonical pair [(m, e)] denotes the integer [v]. *)
Definition int_repr (v : Z) (m : positive) (e : Z) : Prop :=
  bounded prec emax m e = true /\
  Zpos m * 2 ^ Z.max e 0 = v * 2 ^ Z.max (- e) 0.

(** The integer nearest to the tenth of a finite Number, the one closer to
    +Infinity on a tie: [floor (x / 10 + 1/2)], computed exactly. *)
Definition tenth_half_up (x : number) : Z :=
  match x with
  | S754_finite s m e =>
      (2 * cond_Zopp s (Zpos m * 2 ^ Z.max e 0) + 10 * 2 ^ Z.max (- e) 0)
      / (20 * 2 ^ Z.max (- e) 0)
  | _ => 0
  end.

(** A Number that is infinite or finite and not zero, with sign bit [s]. *)
Definition nonzero_with_sign (s : bool) (x : number) : Prop :=
  x = S754_infinity s \/ exists m e, x = S754_finite s m e.

(** The inputs on which the formatter is exact: the magnitude is below
    [10 * 2^50 = 11258999068426240]. *)
Definition in_range (x : number) : bool := ltb (abs x) (of_Z 11258999068426240).

(** ** Inputs and notions that the statements use *)

(** The Number that the literal [123.4] denotes: the quotient of 1234 by
    ten, rounded to the nearest Number. *)
Definition literal_123_4 : number := S754_finite false 8683503031523738 (-46).

(** A trip state carries the variant [name] when it is an object with an
    own property of that name. *)
Definition has_variant (name : string) (st : value) : bool :=
  match st with
  | VObject props =>
      match own_property name props with
      | Some _ => true
      | None => false
      end
  | _ => false
  end.

(** Falsy values: [null], [undefined], [0], [false] and the empty string. *)
Definition falsy_values : list value :=
  [VNull; VUndefined; VNumber (of_Z 0); VBoolean false; VString EmptyString].

(** The trip state of the end-to-end example. *)
Definition turn_right_instruction : value :=
  VObject [("primaryContent"%string, VObject [("text"%string, VString "Turn right")])].

Definition turn_right_state : value :=
  VObject [("Navigating"%string,
            VObject [("visualInstruction"%string, turn_right_instruction);
                     ("progress"%string,
                      VObject [("distanceToNextManeuver"%string, VNumber (of_Z 347))])])].

(** The values whose properties cannot be read. *)
Definition is_nullish (v : value) : bool :=
  match v with
  | VUndefined | VNull => true
  | _ => false
  end.

(** ** Rounding to the format: what [binary_round_aux] computes *)

Lemma digits2_size (p : positive) : digits2_pos p = Pos.size p.
Proof. induction p; simpl; congruence. Qed.

Lemma digits_bounds (p : positive) :
  2 ^ (Zpos (digits2_pos p) - 1) <= Zpos p < 2 ^ Zpos (digits2_pos p).
Proof.
  rewrite digits2_size. split.
  - pose proof (Pos.size_le p) as H.
    assert (2 ^ Zpos (Pos.size p) <= 2 * Zpos p) as H'.
    { change 2 with (Zpos 2) at 1. rewrite <- Pos2Z.inj_pow. lia. }
    replace (Zpos (Pos.size p)) with (Zpos (Pos.size p) - 1 + 1) in H' by lia.
    rewrite Z.pow_add_r in H' by lia. lia.
  - pose proof (Pos.size_gt p) as H.
    change 2 with (Zpos 2). rewrite <- Pos2Z.inj_pow. lia.
Qed.

Lemma digits_unique (p : positive) (d : Z) :
  2 ^ (d - 1) <= Zpos p < 2 ^ d -> Zpos (digits2_pos p) = d.
Proof.
  intros [Hl Hu]. pose proof (digits_bounds p) as [Bl Bu].
  assert (0 < d) as Hd.
  { destruct (Z.ltb_spec 0 d); auto.
    assert (2 ^ d <= 1); [|lia].
    destruct (Z.eq_dec d 0) as [->|]; [simpl; lia|].
    rewrite Z.pow_neg_r; lia. }
  destruct (Z.lt_trichotomy (Zpos (digits2_pos p)) d) as [H|[H|H]]; auto.
  - assert (2 ^ Zpos (digits2_pos p) <= 2 ^ (d - 1)) by (apply Z.pow_le_mono_r; lia). lia.
  - assert (2 ^ d <= 2 ^ (Zpos (digits2_pos p) - 1)) by (apply Z.pow_le_mono_r; lia). lia.
Qed.

Lemma shr_1_nonneg (m : Z) (r s : bool) :
  0 <= m ->
  shr_1 (Build_shr_record m r s) = Build_shr_record (m / 2) (Z.odd m) (r || s).
Proof.
  intros Hm. rewrite <- Z.div2_div.
  destruct m as [|p|p]; [reflexivity| |lia].
  destruct p; reflexivity.
Qed.

Lemma located_shr_1 (N D : Z) (mrs : shr_record) :
  0 <= N -> 0 < D -> located N D mrs -> located N (2 * D) (shr_1 mrs).
Proof.
  intros HN HD. destruct mrs as [m r s]. intros (Hm & Hr & Hs).
  cbn [shr_m shr_r shr_s] in Hm, Hr, Hs.
  assert (0 <= m) by (subst m; apply Z.div_pos; lia).
  rewrite shr_1_nonneg by assumption.
  pose proof (Z.mod_pos_bound N D HD) as Hb.
  assert (N mod (2 * D) = N mod D + D * (m mod 2)) as Hmod.
  { rewrite (Z.mul_comm 2 D), Z.rem_mul_r by lia. now subst m. }
  rewrite Zmod_odd in Hmod.
  unfold located; cbn [shr_m shr_r shr_s]. repeat split.
  - subst m. rewrite Z.div_div by lia. f_equal. lia.
  - rewrite Hmod. destruct (Z.odd m).
    + symmetry. apply Z.leb_le. lia.
    + symmetry. apply Z.leb_gt. lia.
  - rewrite Hmod, Hr, Hs. destruct (Z.odd m).
    + destruct (Z.leb_spec D (2 * (N mod D)));
        destruct (Z.eqb_spec (N mod D) 0); destruct (Z.eqb_spec (2 * (N mod D)) D);
        destruct (Z.eqb_spec (N mod D + D * 1) 0);
        destruct (Z.eqb_spec (2 * (N mod D + D * 1)) (2 * D)); simpl; try reflexivity; lia.
    + destruct (Z.leb_spec D (2 * (N mod D)));
        destruct (Z.eqb_spec (N mod D) 0); destruct (Z.eqb_spec (2 * (N mod D)) D);
        destruct (Z.eqb_spec (N mod D + D * 0) 0);
        destruct (Z.eqb_spec (2 * (N mod D + D * 0)) (2 * D)); simpl; try reflexivity; lia.
Qed.

Lemma located_iter_pos (p : positive) :
  forall N D mrs, 0 <= N -> 0 < D -> located N D mrs ->
    located N (2 ^ Zpos p * D) (iter_pos shr_1 p mrs).
Proof.
  induction p as [p IH|p IH|]; intros N D mrs HN HD H; simpl iter_pos.
  - apply located_shr_1 in H; try assumption.
    apply IH in H; try lia. apply IH in H; try assumption.
    + replace (2 ^ Zpos p~1 * D) with (2 ^ Zpos p * (2 ^ Zpos p * (2 * D))); auto.
      replace (Zpos p~1) with (Zpos p + Zpos p + 1) by lia.
      rewrite !Z.pow_add_r by lia. change (2 ^ 1) with 2. ring.
    + assert (0 < 2 ^ Zpos p) by (apply Z.pow_pos_nonneg; lia). nia.
  - apply IH in H; try lia. apply IH in H; try assumption.
    + replace (2 ^ Zpos p~0 * D) with (2 ^ Zpos p * (2 ^ Zpos p * D)); auto.
      replace (Zpos p~0) with (Zpos p + Zpos p) by lia.
      rewrite !Z.pow_add_r by lia. ring.
    + assert (0 < 2 ^ Zpos p) by (apply Z.pow_pos_nonneg; lia). nia.
  - apply located_shr_1 in H; auto.
Qed.

Lemma located_shr (N D : Z) (mrs : shr_record) (e n : Z) :
  0 <= N -> 0 < D -> located N D mrs ->
  snd (shr mrs e n) = e + Z.max 0 n /\
  located N (2 ^ Z.max 0 n * D) (fst (shr mrs e n)).
Proof.
  intros HN HD H. destruct n as [|p|p]; simpl shr; cbn [fst snd].
  - rewrite Z.max_r by lia. change (2 ^ 0) with 1.
    rewrite Z.add_0_r, Z.mul_1_l. auto.
  - rewrite Z.max_r by lia. split; [reflexivity|].
    now apply located_iter_pos.
  - rewrite Z.max_l by lia. change (2 ^ 0) with 1.
    rewrite Z.add_0_r, Z.mul_1_l. auto.
Qed.

Lemma located_rne (N D : Z) (mrs : shr_record) :
  0 <= N -> 0 < D -> located N D mrs ->
  round_nearest_even (shr_m mrs) (loc_of_shr_record mrs) = rne N D.
Proof.
  intros HN HD. destruct mrs as [m r s]. intros (Hm & Hr & Hs).
  cbn [shr_m shr_r shr_s] in *. unfold rne. subst m.
  pose proof (Z.mod_pos_bound N D HD) as Hb.
  destruct (Z.compare_spec (2 * (N mod D)) D) as [Hc|Hc|Hc];
    destruct (Z.leb_spec D (2 * (N mod D))); try lia;
    destruct (Z.eqb_spec (N mod D) 0); try lia;
    destruct (Z.eqb_spec (2 * (N mod D)) D); try lia;
    subst r s; reflexivity.
Qed.

Lemma located_exact (m : Z) : located m 1 (shr_record_of_loc m loc_Exact).
Proof.
  unfold located; cbn [shr_record_of_loc shr_m shr_r shr_s].
  rewrite Z.div_1_r, Z.mod_1_r. repeat split.
Qed.

Lemma located_new_location (N D : Z) :
  0 <= N -> 0 < D -> Z.even D = true ->
  located N D (shr_record_of_loc (N / D) (new_location D (N mod D))).
Proof.
  intros HN HD HE. unfold new_location, new_location_even. rewrite HE.
  pose proof (Z.mod_pos_bound N D HD) as Hb.
  unfold located.
  destruct (Z.eqb_spec (N mod D) 0) as [H0|H0].
  - cbn [shr_record_of_loc shr_m shr_r shr_s]. rewrite H0. repeat split.
    symmetry. apply Z.leb_gt. lia.
  - destruct (Z.compare_spec (2 * (N mod D)) D) as [Hc|Hc|Hc];
      cbn [shr_record_of_loc shr_m shr_r shr_s];
      destruct (Z.leb_spec D (2 * (N mod D))); try lia;
      destruct (Z.eqb_spec (2 * (N mod D)) D); try lia; repeat split.
Qed.

(** [binary_round_aux] rounds the located real to the nearest multiple
    of the unit in the last place of its binade. *)
Lemma binary_round_aux_rne (sx : bool) (mx ex : Z) (lx : location) (N D : Z) :
  0 <= N -> 0 < D -> located N D (shr_record_of_loc mx lx) ->
  binary_round_aux prec emax sx mx ex lx =
  pack sx (rne N (2 ^ Z.max 0 (fexp prec emax (Zdigits2 mx + ex) - ex) * D))
       (ex + Z.max 0 (fexp prec emax (Zdigits2 mx + ex) - ex)).
Proof.
  intros HN HD H. unfold binary_round_aux, pack.
  unfold shr_fexp at 1.
  pose proof (located_shr N D _ ex (fexp prec emax (Zdigits2 mx + ex) - ex) HN HD H)
    as [He Hl].
  destruct (shr (shr_record_of_loc mx lx) ex (fexp prec emax (Zdigits2 mx + ex) - ex))
    as [mrs' e'].
  cbn [fst snd] in He, Hl. subst e'.
  assert (0 < 2 ^ Z.max 0 (fexp prec emax (Zdigits2 mx + ex) - ex))
    by (apply Z.pow_pos_nonneg; lia).
  assert (0 < 2 ^ Z.max 0 (fexp prec emax (Zdigits2 mx + ex) - ex) * D) as HP by nia.
  rewrite (located_rne _ _ _ HN HP Hl). reflexivity.
Qed.

(** [pack] drops the low bits that exceed the precision. *)
Lemma pack_eq (sx : bool) (m e : Z) :
  0 <= m ->
  pack sx m e =
  match m / 2 ^ Z.max 0 (fexp prec emax (Zdigits2 m + e) - e) with
  | Z0 => S754_zero sx
  | Zpos p =>
      if e + Z.max 0 (fexp prec emax (Zdigits2 m + e) - e) <=? emax - prec
      then S754_finite sx p (e + Z.max 0 (fexp prec emax (Zdigits2 m + e) - e))
      else S754_infinity sx
  | Zneg _ => S754_nan
  end.
Proof.
  intros Hm. unfold pack, shr_fexp.
  pose proof (located_shr m 1 _ e (fexp prec emax (Zdigits2 m + e) - e) Hm Z.lt_0_1
                (located_exact m)) as [He Hl].
  destruct (shr (shr_record_of_loc m loc_Exact) e (fexp prec emax (Zdigits2 m + e) - e))
    as [mrs' e'].
  cbn [fst snd] in He, Hl. subst e'.
  destruct Hl as (Hl & _). rewrite Hl, Z.mul_1_r. reflexivity.
Qed.

(** *** Arithmetic of [rne] *)

Lemma rne_lower (N D T : Z) : 0 < D -> T * D <= N -> T <= rne N D.
Proof.
  intros HD H. unfold rne.
  pose proof (Z.div_mod N D ltac:(lia)). pose proof (Z.mod_pos_bound N D HD).
  assert (T <= N / D) by nia.
  destruct (2 * (N mod D) ?= D); [destruct (Z.even (N / D))| |]; lia.
Qed.

Lemma rne_upper (N D T : Z) : 0 < D -> N <= T * D -> rne N D <= T.
Proof.
  intros HD H. unfold rne.
  pose proof (Z.div_mod N D ltac:(lia)). pose proof (Z.mod_pos_bound N D HD).
  assert (N / D <= T) by nia.
  destruct (Z.compare_spec (2 * (N mod D)) D);
    [destruct (Z.even (N / D))| |]; nia.
Qed.

Lemma rne_below (N D T : Z) : 0 < D -> 2 * N < (2 * T - 1) * D -> rne N D < T.
Proof.
  intros HD H. unfold rne.
  pose proof (Z.div_mod N D ltac:(lia)). pose proof (Z.mod_pos_bound N D HD).
  assert (N / D < T) by nia.
  destruct (Z.compare_spec (2 * (N mod D)) D);
    [destruct (Z.even (N / D))| |]; nia.
Qed.

Lemma rne_above (N D T : Z) : 0 < D -> (2 * T + 1) * D < 2 * N -> T < rne N D.
Proof.
  intros HD H. unfold rne.
  pose proof (Z.div_mod N D ltac:(lia)). pose proof (Z.mod_pos_bound N D HD).
  assert (T <= N / D) by nia.
  destruct (Z.compare_spec (2 * (N mod D)) D);
    [destruct (Z.even (N / D))| |]; nia.
Qed.

Lemma rne_exact (a D : Z) : 0 < D -> rne (a * D) D = a.
Proof.
  intros HD. unfold rne. rewrite Z.mod_mul, Z.div_mul by lia.
  destruct (Z.compare_spec (2 * 0) D); lia.
Qed.

Lemma rne_scale (N D c : Z) : 0 < D -> 0 < c -> rne (N * c) (D * c) = rne N D.
Proof.
  intros HD Hc. unfold rne.
  rewrite Z.div_mul_cancel_r, Z.mul_mod_distr_r by lia.
  pose proof (Z.mod_pos_bound N D HD).
  destruct (Z.compare_spec (2 * (N mod D * c)) (D * c));
    destruct (Z.compare_spec (2 * (N mod D)) D); try reflexivity; nia.
Qed.

(** *** The format *)

Lemma fexp_eq (e : Z) : fexp prec emax e = Z.max (e - 53) (-1074).
Proof. reflexivity. Qed.

Lemma bounded_inv (m : positive) (e : Z) :
  bounded prec emax m e = true ->
  Z.max (Zpos (digits2_pos m) + e - 53) (-1074) = e /\ e <= 971.
Proof.
  unfold bounded, canonical_mantissa. rewrite fexp_eq.
  intros H. apply andb_true_iff in H as [H1 H2].
  apply Z.eqb_eq in H1. apply Z.leb_le in H2. unfold emax, prec in H2. lia.
Qed.

Lemma Zdigits2_le (m d : Z) : 0 <= m < 2 ^ d -> 0 <= d -> Zdigits2 m <= d.
Proof.
  intros [H0 H1] Hd. destruct m as [|p|p]; simpl; try lia.
  pose proof (digits_bounds p) as [Hl _].
  destruct (Z.le_gt_cases (Zpos (digits2_pos p)) d) as [|Hgt]; auto.
  assert (2 ^ d <= 2 ^ (Zpos (digits2_pos p) - 1)) by (apply Z.pow_le_mono_r; lia).
  lia.
Qed.

Lemma pack_small (sx : bool) (m e : Z) :
  0 <= m < 2 ^ 53 -> -1074 <= e <= 971 ->
  pack sx m e =
  match m with
  | Z0 => S754_zero sx
  | Zpos p => S754_finite sx p e
  | Zneg _ => S754_nan
  end.
Proof.
  intros Hm He. rewrite pack_eq by lia.
  pose proof (Zdigits2_le m 53 Hm ltac:(lia)) as Hd.
  rewrite fexp_eq.
  replace (Z.max 0 (Z.max (Zdigits2 m + e - 53) (-1074) - e)) with 0 by lia.
  change (2 ^ 0) with 1. rewrite Z.div_1_r, Z.add_0_r.
  destruct m; auto.
  replace (e <=? emax - prec) with true; auto.
  symmetry. apply Z.leb_le. unfold emax, prec. lia.
Qed.


(** ** The quotient by ten, its rounding and the product by ten *)

Lemma ten_eq : ten = S754_finite false 5629499534213120 (-49).
Proof. reflexivity. Qed.

Lemma div_ten_rne (s : bool) (M : positive) (E : Z) :
  bounded prec emax M E = true ->
  div (S754_finite s M E) ten =
  pack s
    (rne (Zpos M * 2 ^ (E - fexp prec emax (Zpos (digits2_pos M) + E - 4)))
       (2 ^ Z.max 0 (fexp prec emax
                        (Zdigits2 (Zpos M * 2 ^ (E - fexp prec emax (Zpos (digits2_pos M) + E - 4)) / 10)
                         + fexp prec emax (Zpos (digits2_pos M) + E - 4))
                      - fexp prec emax (Zpos (digits2_pos M) + E - 4)) * 10))
    (fexp prec emax (Zpos (digits2_pos M) + E - 4)
     + Z.max 0 (fexp prec emax
                        (Zdigits2 (Zpos M * 2 ^ (E - fexp prec emax (Zpos (digits2_pos M) + E - 4)) / 10)
                         + fexp prec emax (Zpos (digits2_pos M) + E - 4))
                      - fexp prec emax (Zpos (digits2_pos M) + E - 4))).
Proof.
  intros Hb. apply bounded_inv in Hb as [Hc He].
  set (e0 := fexp prec emax (Zpos (digits2_pos M) + E - 4)).
  assert (e0 = Z.max (Zpos (digits2_pos M) + E - 57) (-1074)) as He0
    by (unfold e0; rewrite fexp_eq; lia).
  assert (0 <= E - e0 <= 4) as Ha by lia.
  set (N := Zpos M * 2 ^ (E - e0)).
  assert (0 < 2 ^ (E - e0)) as Hp by (apply Z.pow_pos_nonneg; lia).
  assert (0 <= N) as HN by (unfold N; nia).
  unfold div. rewrite ten_eq. unfold SFdiv, SFdiv_core_binary.
  change (Zdigits2 (Zpos 5629499534213120)) with 53.
  change (Zdigits2 (Zpos M)) with (Zpos (digits2_pos M)).
  replace (Zpos (digits2_pos M) + E - (53 + -49)) with (Zpos (digits2_pos M) + E - 4) by lia.
  fold e0.
  replace (Z.min e0 (E - -49)) with e0 by lia.
  replace (E - -49 - e0) with (E - e0 + 49) by lia.
  assert (match E - e0 + 49 with
          | 0 => Zpos M
          | Zpos _ => Z.shiftl (Zpos M) (E - e0 + 49)
          | Zneg _ => 0
          end = N * 2 ^ 49) as Hm'.
  { destruct (E - e0 + 49) eqn:Hs; try lia.
    rewrite Z.shiftl_mul_pow2 by lia. rewrite <- Hs.
    unfold N. rewrite Z.pow_add_r by lia. ring. }
  rewrite Hm'. clear Hm'.
  pose proof (located_new_location (N * 2 ^ 49) 5629499534213120
                ltac:(lia) ltac:(lia) eq_refl) as Hloc.
  unfold Z.div, Z.modulo in Hloc.
  destruct (Z.div_eucl (N * 2 ^ 49) 5629499534213120) as [q r] eqn:Hqr.
  assert (q = N / 10) as Hq.
  { change 5629499534213120 with (10 * 2 ^ 49) in Hqr.
    rewrite <- (Z.div_mul_cancel_r N 10 (2 ^ 49)) by lia.
    unfold Z.div. now rewrite Hqr. }
  rewrite (binary_round_aux_rne _ _ _ _ (N * 2 ^ 49) 5629499534213120) by (auto; lia).
  rewrite xorb_false_r. rewrite Hq.
  f_equal.
  set (n := Z.max 0 _).
  assert (0 < 2 ^ n) by (apply Z.pow_pos_nonneg; unfold n; lia).
  replace (2 ^ n * 5629499534213120) with (2 ^ n * 10 * 2 ^ 49) by lia.
  apply rne_scale; lia.
Qed.

Lemma Zdigits2_unique (m d : Z) : 2 ^ (d - 1) <= m < 2 ^ d -> 0 < m -> Zdigits2 m = d.
Proof.
  intros H Hm. destruct m as [|p|p]; try lia. simpl. now apply digits_unique.
Qed.

Lemma bounded_normal (M : positive) (E : Z) :
  bounded prec emax M E = true -> -1074 < E ->
  Zpos (digits2_pos M) = 53 /\ 2 ^ 52 <= Zpos M < 2 ^ 53.
Proof.
  intros Hb HE. apply bounded_inv in Hb as [Hc _].
  assert (Zpos (digits2_pos M) = 53) as Hd by lia.
  split; auto. pose proof (digits_bounds M) as Hdb. rewrite Hd in Hdb. exact Hdb.
Qed.

Lemma bounded_lt (M : positive) (E : Z) :
  bounded prec emax M E = true -> Zpos M < 2 ^ 53 /\ -1074 <= E <= 971.
Proof.
  intros Hb. apply bounded_inv in Hb as [Hc He].
  pose proof (digits_bounds M) as [_ Hu].
  assert (Zpos (digits2_pos M) <= 53) by lia.
  assert (2 ^ Zpos (digits2_pos M) <= 2 ^ 53) by (apply Z.pow_le_mono_r; lia).
  lia.
Qed.

(** The quotient by ten of a Number that is not tiny. *)
Lemma div_ten_normal (s : bool) (M : positive) (E : Z) :
  bounded prec emax M E = true -> -1070 <= E ->
  exists n, (n = 0 \/ n = 1) /\ (n = 0 <-> Zpos M < 5 * 2 ^ 50) /\
    2 ^ 52 <= rne (Zpos M * 2 ^ 4) (2 ^ n * 10) < 2 ^ 53 /\
    div (S754_finite s M E) ten =
    pack s (rne (Zpos M * 2 ^ 4) (2 ^ n * 10)) (E - 4 + n).
Proof.
  intros Hb HE. pose proof (div_ten_rne s M E Hb) as Hdiv.
  pose proof (bounded_normal M E Hb ltac:(lia)) as [Hd HM].
  pose proof (bounded_lt M E Hb) as [_ HE'].
  rewrite Hd in Hdiv. rewrite !fexp_eq in Hdiv.
  replace (Z.max (53 + E - 4 - 53) (-1074)) with (E - 4) in Hdiv by lia.
  replace (E - (E - 4)) with 4 in Hdiv by lia.
  change (2 ^ 52) with 4503599627370496 in *.
  change (2 ^ 53) with 9007199254740992 in *.
  change (2 ^ 4) with 16 in *.
  destruct (Z.lt_ge_cases (Zpos M) (5 * 2 ^ 50)) as [Hlt|Hge];
    change (5 * 2 ^ 50) with 5629499534213120 in *.
  - exists 0. split; [auto|]. split; [tauto|].
    assert (Zdigits2 (Zpos M * 16 / 10) = 53) as Hq.
    { apply Zdigits2_unique.
      - change (2 ^ (53 - 1)) with 4503599627370496.
        change (2 ^ 53) with 9007199254740992.
        pose proof (Z.div_mod (Zpos M * 16) 10 ltac:(lia)).
        pose proof (Z.mod_pos_bound (Zpos M * 16) 10 ltac:(lia)). lia.
      - pose proof (Z.div_mod (Zpos M * 16) 10 ltac:(lia)).
        pose proof (Z.mod_pos_bound (Zpos M * 16) 10 ltac:(lia)). lia. }
    rewrite Hq in Hdiv.
    replace (Z.max 0 (Z.max (53 + (E - 4) - 53) (-1074) - (E - 4))) with 0 in Hdiv by lia.
    rewrite Z.add_0_r. rewrite Z.add_0_r in Hdiv. split; [|exact Hdiv].
    change (2 ^ 0 * 10) with 10. split.
    + apply rne_lower; lia.
    + apply rne_below; lia.
  - exists 1. split; [auto|]. split; [split; intros; lia|].
    assert (Zdigits2 (Zpos M * 16 / 10) = 54) as Hq.
    { apply Zdigits2_unique.
      - change (2 ^ (54 - 1)) with 9007199254740992.
        change (2 ^ 54) with 18014398509481984.
        pose proof (Z.div_mod (Zpos M * 16) 10 ltac:(lia)).
        pose proof (Z.mod_pos_bound (Zpos M * 16) 10 ltac:(lia)). lia.
      - pose proof (Z.div_mod (Zpos M * 16) 10 ltac:(lia)).
        pose proof (Z.mod_pos_bound (Zpos M * 16) 10 ltac:(lia)). lia. }
    rewrite Hq in Hdiv.
    replace (Z.max 0 (Z.max (54 + (E - 4) - 53) (-1074) - (E - 4))) with 1 in Hdiv by lia.
    split; [|exact Hdiv].
    change (2 ^ 1 * 10) with 20. split.
    + apply rne_lower; lia.
    + apply rne_below; lia.
Qed.

(** The quotient by ten of a tiny Number. *)
Lemma div_ten_tiny (s : bool) (M : positive) (E : Z) :
  bounded prec emax M E = true -> E <= -1071 ->
  0 <= rne (Zpos M * 2 ^ (E + 1074)) 10 < 2 ^ 53 /\
  div (S754_finite s M E) ten =
  pack s (rne (Zpos M * 2 ^ (E + 1074)) 10) (-1074).
Proof.
  intros Hb HE. pose proof (div_ten_rne s M E Hb) as Hdiv.
  pose proof (bounded_lt M E Hb) as [HM HE'].
  pose proof (bounded_inv M E Hb) as [Hc _].
  rewrite !fexp_eq in Hdiv.
  replace (Z.max (Zpos (digits2_pos M) + E - 4 - 53) (-1074)) with (-1074) in Hdiv by lia.
  replace (E - -1074) with (E + 1074) in Hdiv by lia.
  assert (0 < 2 ^ (E + 1074) <= 8) as Hp.
  { split; [apply Z.pow_pos_nonneg; lia|].
    change 8 with (2 ^ 3). apply Z.pow_le_mono_r; lia. }
  set (N := Zpos M * 2 ^ (E + 1074)) in *.
  change (2 ^ 53) with 9007199254740992 in *.
  assert (0 <= N < 8 * 9007199254740992) as HN by (unfold N; nia).
  assert (0 <= N / 10 < 2 ^ 53) as Hq.
  { change (2 ^ 53) with 9007199254740992.
    pose proof (Z.div_mod N 10 ltac:(lia)).
    pose proof (Z.mod_pos_bound N 10 ltac:(lia)). lia. }
  pose proof (Zdigits2_le _ 53 Hq ltac:(lia)) as Hd.
  pose proof (Zdigits2_le _ 53 Hq ltac:(lia)) as Hd0.
  assert (0 <= Zdigits2 (N / 10)) as Hd1 by (destruct (N / 10); simpl; lia).
  replace (Z.max 0 (Z.max (Zdigits2 (N / 10) + -1074 - 53) (-1074) - -1074)) with 0 in Hdiv by lia.
  change (2 ^ 0 * 10) with 10 in Hdiv. rewrite Z.add_0_r in Hdiv.
  split; [|exact Hdiv]. split.
  - apply rne_lower; lia.
  - apply rne_below; lia.
Qed.

Lemma Math_round_pack (s : bool) (m e : Z) :
  0 <= m < 2 ^ 53 -> -1074 <= e < 0 ->
  Math_round (pack s m e) =
  binary_normalize prec emax ((2 * cond_Zopp s m + 2 ^ (- e)) / 2 ^ (1 - e)) 0 s.
Proof.
  intros Hm He. rewrite pack_small by lia.
  destruct m as [|p|p]; try lia.
  - cbn [Math_round]. replace (cond_Zopp s 0) with 0 by (destruct s; reflexivity).
    rewrite Z.div_small; [reflexivity|].
    replace (1 - e) with (- e + 1) by lia.
    rewrite Z.pow_add_r by lia.
    assert (0 < 2 ^ (- e)) by (apply Z.pow_pos_nonneg; lia). lia.
  - cbn [Math_round]. destruct (Z.leb_spec 0 e); [lia|reflexivity].
Qed.

Section Heart.
Variables N D h g : Z.
Hypothesis HD : 0 < D.
Hypothesis Hh : 0 < h.
Hypothesis Hg : D < g.
Hypothesis Hg1 : (g | 2 * N).
Hypothesis Hg2 : (g | 2 * D * h).

Lemma half_up_rne_pos :
  (2 * rne N D + 2 * h) / (4 * h) = (2 * N + 2 * D * h) / (4 * D * h).
Proof.
  set (K := (2 * N + 2 * D * h) / (4 * D * h)).
  assert (0 < 4 * D * h) as Hpos by nia.
  pose proof (Z.div_mod (2 * N + 2 * D * h) (4 * D * h) ltac:(lia)) as Hdm.
  pose proof (Z.mod_pos_bound (2 * N + 2 * D * h) (4 * D * h) Hpos) as Hmb.
  fold K in Hdm.
  assert ((2 * K - 1) * h <= rne N D) as Hlo by (apply rne_lower; nia).
  assert (rne N D < (2 * K + 1) * h) as Hhi.
  { apply rne_below; auto.
    destruct Hg1 as [u Hu]. destruct Hg2 as [w Hw].
    assert ((2 * K + 1) * (2 * D * h) - 2 * N = g * ((2 * K + 1) * w - u)) as Hgap
      by (rewrite Hu, Hw; ring).
    assert (0 < g * ((2 * K + 1) * w - u)) by (rewrite <- Hgap; lia).
    assert (1 <= (2 * K + 1) * w - u) by nia.
    assert (g <= g * ((2 * K + 1) * w - u)) by nia.
    lia. }
  symmetry. apply (Z.div_unique_pos _ _ K (2 * rne N D + 2 * h - 4 * h * K)); lia.
Qed.

Lemma half_up_rne_neg :
  (2 * - rne N D + 2 * h) / (4 * h) = (2 * - N + 2 * D * h) / (4 * D * h).
Proof.
  set (K := (2 * - N + 2 * D * h) / (4 * D * h)).
  assert (0 < 4 * D * h) as Hpos by nia.
  pose proof (Z.div_mod (2 * - N + 2 * D * h) (4 * D * h) ltac:(lia)) as Hdm.
  pose proof (Z.mod_pos_bound (2 * - N + 2 * D * h) (4 * D * h) Hpos) as Hmb.
  fold K in Hdm.
  assert (rne N D <= (1 - 2 * K) * h) as Hhi by (apply rne_upper; nia).
  assert ((- 1 - 2 * K) * h < rne N D) as Hlo.
  { apply rne_above; auto.
    destruct Hg1 as [u Hu]. destruct Hg2 as [w Hw].
    assert (2 * N + (1 + 2 * K) * (2 * D * h) = g * (u + (1 + 2 * K) * w)) as Hgap
      by (rewrite Hu, Hw; ring).
    assert (0 < g * (u + (1 + 2 * K) * w)) by (rewrite <- Hgap; lia).
    assert (1 <= u + (1 + 2 * K) * w) by nia.
    assert (g <= g * (u + (1 + 2 * K) * w)) by nia.
    lia. }
  symmetry. apply (Z.div_unique_pos _ _ K (2 * - rne N D + 2 * h - 4 * h * K)); lia.
Qed.

Lemma half_up_rne (s : bool) :
  (2 * cond_Zopp s (rne N D) + 2 * h) / (4 * h) =
  (2 * cond_Zopp s N + 2 * D * h) / (4 * D * h).
Proof. destruct s; [apply half_up_rne_neg|apply half_up_rne_pos]. Qed.
End Heart.

Lemma half_up_rne_tiny (N D h : Z) (s : bool) :
  0 <= N -> 0 < D -> 0 < h -> N <= h * D ->
  (2 * cond_Zopp s (rne N D) + 8 * h) / (16 * h) = 0 /\
  (2 * cond_Zopp s N + 8 * D * h) / (16 * D * h) = 0.
Proof.
  intros HN HD Hh Hle.
  assert (0 <= rne N D) by (apply rne_lower; lia).
  assert (rne N D <= h) by (apply rne_upper; lia).
  assert (0 < D * h) by nia.
  split; apply Z.div_small; destruct s; cbn [cond_Zopp]; lia.
Qed.



Lemma cond_Zopp_mul (s : bool) (a c : Z) : cond_Zopp s (a * c) = cond_Zopp s a * c.
Proof. destruct s; cbn [cond_Zopp]; ring. Qed.

Lemma pow2_pos (e : Z) : 0 <= e -> 0 < 2 ^ e.
Proof. intros. apply Z.pow_pos_nonneg; lia. Qed.

Lemma pow2_split (a b : Z) : 0 <= a -> 0 <= b -> 2 ^ (a + b) = 2 ^ a * 2 ^ b.
Proof. intros. apply Z.pow_add_r; lia. Qed.

Lemma round_div_ten (s : bool) (M : positive) (E : Z) :
  bounded prec emax M E = true ->
  E <= 0 \/ (E = 1 /\ Zpos M < 5 * 2 ^ 50) ->
  Math_round (div (S754_finite s M E) ten) = int_num s (tenth_half_up (S754_finite s M E)).
Proof.
  intros Hb Hr. unfold int_num, tenth_half_up.
  pose proof (bounded_lt M E Hb) as [HM HE].
  destruct (Z.le_gt_cases E (-1071)) as [Ht|Hn].
  - (* tiny *)
    destruct (div_ten_tiny s M E Hb Ht) as [Hm2 ->].
    rewrite Math_round_pack by lia.
    rewrite (Z.max_r E 0), (Z.max_l (- E) 0) by lia. change (2 ^ 0) with 1. rewrite Z.mul_1_r.
    assert (2 ^ 54 <= 2 ^ (- E)) as Hp by (apply Z.pow_le_mono_r; lia).
    change (2 ^ 54) with 18014398509481984 in Hp.
    change (2 ^ 53) with 9007199254740992 in HM.
    replace ((2 * cond_Zopp s (Zpos M) + 10 * 2 ^ (- E)) / (20 * 2 ^ (- E))) with 0.
    2:{ symmetry. apply Z.div_small. destruct s; cbn [cond_Zopp]; lia. }
    assert (0 < 2 ^ (E + 1074) <= 8) as Hp8.
    { split; [apply pow2_pos; lia|]. change 8 with (2 ^ 3). apply Z.pow_le_mono_r; lia. }
    pose proof (half_up_rne_tiny (Zpos M * 2 ^ (E + 1074)) 10 (2 ^ 1071) s
                  ltac:(nia) ltac:(lia) ltac:(apply pow2_pos; lia)) as Htiny.
    assert (2 ^ 57 <= 2 ^ 1071) as Hp57 by (apply Z.pow_le_mono_r; lia).
    change (2 ^ 57) with 144115188075855872 in Hp57.
    destruct Htiny as [H1 _]; [nia|].
    replace (2 ^ (- -1074)) with (8 * 2 ^ 1071).
    2:{ change (- -1074) with (3 + 1071). rewrite pow2_split by lia. reflexivity. }
    replace (2 ^ (1 - -1074)) with (16 * 2 ^ 1071).
    2:{ change (1 - -1074) with (4 + 1071). rewrite pow2_split by lia. reflexivity. }
    rewrite H1. reflexivity.
  - (* normal *)
    destruct (div_ten_normal s M E Hb ltac:(lia)) as (n & Hn01 & Hn0 & Hm2 & ->).
    assert (-1074 <= E - 4 + n <= -3) as He1 by lia.
    rewrite Math_round_pack by lia.
    set (e1 := E - 4 + n) in *.
    assert (0 < 2 ^ (- e1 - 3)) as Hq by (apply pow2_pos; lia).
    assert (2 ^ (- e1) = 2 * (4 * 2 ^ (- e1 - 3))) as Hsc.
    { replace (- e1) with (3 + (- e1 - 3)) at 1 by lia. rewrite pow2_split by lia.
      change (2 ^ 3) with 8. ring. }
    assert (2 ^ (1 - e1) = 4 * (4 * 2 ^ (- e1 - 3))) as Hsc2.
    { replace (1 - e1) with (4 + (- e1 - 3)) by lia. rewrite pow2_split by lia.
      change (2 ^ 4) with 16. ring. }
    assert (0 < 2 ^ n) as Hpn by (apply pow2_pos; lia).
    assert (2 ^ n = 1 \/ 2 ^ n = 2) as Hn2 by (destruct Hn01; subst n; auto).
    rewrite Hsc, Hsc2.
    rewrite (half_up_rne (Zpos M * 2 ^ 4) (2 ^ n * 10) (4 * 2 ^ (- e1 - 3)) (16 * 2 ^ n)).
    + f_equal.
      (* the two quotients agree after cancelling a power of two *)
      change (2 ^ 4) with 16.
      destruct (Z.le_gt_cases E 0) as [HE0|HE0].
      * rewrite (Z.max_r E 0), (Z.max_l (- E) 0) by lia. change (2 ^ 0) with 1.
        rewrite Z.mul_1_r.
        assert (2 ^ n * (4 * 2 ^ (- e1 - 3)) = 8 * 2 ^ (- E)) as Hx.
        { unfold e1. replace (- (E - 4 + n) - 3) with (- E + (1 - n)) by lia.
          rewrite pow2_split by lia.
          destruct Hn01; subst n; [change (2 ^ (1 - 0)) with 2|change (2 ^ (1 - 1)) with 1];
            [change (2 ^ 0) with 1|change (2 ^ 1) with 2]; ring. }
        rewrite <- (Z.div_mul_cancel_r (2 * cond_Zopp s (Zpos M) + 10 * 2 ^ (- E))
                      (20 * 2 ^ (- E)) 16) by (pose proof (pow2_pos (- E)); lia).
        rewrite cond_Zopp_mul. f_equal.
        -- replace (2 * (2 ^ n * 10) * (4 * 2 ^ (- e1 - 3)))
             with (20 * (2 ^ n * (4 * 2 ^ (- e1 - 3)))) by ring.
           rewrite Hx. ring.
        -- replace (4 * (2 ^ n * 10) * (4 * 2 ^ (- e1 - 3)))
             with (40 * (2 ^ n * (4 * 2 ^ (- e1 - 3)))) by ring.
           rewrite Hx. ring.
      * assert (E = 1 /\ n = 0) as [-> ->] by lia.
        unfold e1. change (Z.max 1 0) with 1. change (Z.max (- (1)) 0) with 0.
        change (2 ^ (- (1 - 4 + 0) - 3)) with 1. change (2 ^ 0) with 1. change (2 ^ 1) with 2.
        rewrite <- (Z.div_mul_cancel_r (2 * cond_Zopp s (Zpos M * 2) + 10 * 1) (20 * 1) 8) by lia.
        rewrite !cond_Zopp_mul. f_equal; ring.
    + lia.
    + lia.
    + lia.
    + exists (Zpos M * (2 / 2 ^ n)). change (2 ^ 4) with 16.
      destruct Hn2 as [-> | ->]; [change (2 / 1) with 2|change (2 / 2) with 1]; lia.
    + exists (5 * 2 ^ (- e1 - 3)). ring.
Qed.

(** *** Integers as Numbers *)

Lemma Zdigits2_mul_pow2 (p : positive) (k : Z) :
  0 <= k -> Zdigits2 (Zpos p * 2 ^ k) = Zpos (digits2_pos p) + k.
Proof.
  intros Hk. pose proof (digits_bounds p) as [Hl Hu].
  pose proof (pow2_pos k Hk) as Hp.
  apply Zdigits2_unique; [|nia].
  replace (Zpos (digits2_pos p) + k - 1) with (Zpos (digits2_pos p) - 1 + k) by lia.
  rewrite !pow2_split by lia. nia.
Qed.

Lemma Zdigits2_mono (a b : Z) : 0 < a <= b -> Zdigits2 a <= Zdigits2 b.
Proof.
  intros [Ha Hab]. destruct a as [|p|p]; try lia. destruct b as [|q|q]; try lia.
  simpl. pose proof (digits_bounds p) as [Hl _]. pose proof (digits_bounds q) as [_ Hu].
  destruct (Z.le_gt_cases (Zpos (digits2_pos p)) (Zpos (digits2_pos q))) as [|Hgt]; auto.
  assert (2 ^ Zpos (digits2_pos q) <= 2 ^ (Zpos (digits2_pos p) - 1))
    by (apply Z.pow_le_mono_r; lia).
  lia.
Qed.

(** A product that fits the format is not rounded. *)
Lemma binary_round_aux_exact (sx : bool) (mx ex : Z) (m : positive) (e : Z) :
  bounded prec emax m e = true -> ex <= e -> mx = Zpos m * 2 ^ (e - ex) ->
  binary_round_aux prec emax sx mx ex loc_Exact = S754_finite sx m e.
Proof.
  intros Hb Hle ->. pose proof (bounded_inv m e Hb) as [Hc He].
  pose proof (bounded_lt m e Hb) as [Hm He'].
  pose proof (pow2_pos (e - ex) ltac:(lia)) as Hp.
  rewrite (binary_round_aux_rne _ _ _ _ (Zpos m * 2 ^ (e - ex)) 1);
    [|nia|lia|apply located_exact].
  rewrite Zdigits2_mul_pow2, fexp_eq by lia.
  replace (Z.max 0 (Z.max (Zpos (digits2_pos m) + (e - ex) + ex - 53) (-1074) - ex))
    with (e - ex) by lia.
  rewrite Z.mul_1_r, rne_exact by assumption.
  replace (ex + (e - ex)) with e by lia.
  rewrite pack_small by lia. reflexivity.
Qed.

Lemma iter_xO (k p : positive) : Zpos (Pos.iter xO p k) = Zpos p * 2 ^ Zpos k.
Proof.
  induction k as [|k IH] using Pos.peano_ind.
  - simpl. lia.
  - rewrite Pos.iter_succ, Pos2Z.inj_xO, IH, Pos2Z.inj_succ, Z.pow_succ_r by lia. ring.
Qed.


Lemma int_repr_pos (v : Z) (m : positive) (e : Z) : int_repr v m e -> 0 < v.
Proof.
  intros [_ H]. pose proof (pow2_pos (Z.max e 0)). pose proof (pow2_pos (Z.max (- e) 0)). nia.
Qed.

Lemma int_repr_shift (v : Z) (m : positive) (e c : Z) :
  int_repr v m e -> 0 <= c -> 0 <= e + c -> Zpos m * 2 ^ (e + c) = v * 2 ^ c.
Proof.
  intros [_ H] Hc Hec. destruct (Z.le_gt_cases 0 e) as [He|He].
  - rewrite Z.max_l, Z.max_r in H by lia. change (2 ^ 0) with 1 in H.
    rewrite pow2_split by lia. nia.
  - rewrite Z.max_r, Z.max_l in H by lia. change (2 ^ 0) with 1 in H.
    replace c with (- e + (e + c)) at 2 by lia. rewrite (pow2_split (- e) (e + c)) by lia. nia.
Qed.

Lemma int_repr_exp (v : Z) (m : positive) (e : Z) :
  int_repr v m e -> Zpos (digits2_pos m) + e = Zdigits2 v /\ e = Zdigits2 v - 53.
Proof.
  intros H. pose proof (int_repr_pos _ _ _ H) as Hv. destruct H as [Hb H].
  pose proof (bounded_inv m e Hb) as [Hc He].
  assert (Zpos (digits2_pos m) + e = Zdigits2 v) as Hd.
  { destruct v as [|p|p]; try lia.
    destruct (Z.le_gt_cases 0 e) as [He0|He0].
    - rewrite Z.max_l, Z.max_r in H by lia. change (2 ^ 0) with 1 in H.
      rewrite Z.mul_1_r in H. rewrite <- H, Zdigits2_mul_pow2 by lia. reflexivity.
    - rewrite Z.max_r, Z.max_l in H by lia. change (2 ^ 0) with 1 in H.
      rewrite Z.mul_1_r in H.
      pose proof (Zdigits2_mul_pow2 p (- e) ltac:(lia)) as Hd. rewrite <- H in Hd.
      cbn [Zdigits2] in Hd |- *. lia. }
  split; auto.
  assert (0 < Zdigits2 v) by (destruct v; simpl; lia). lia.
Qed.

Lemma binary_round_int (sx : bool) (p m : positive) (e : Z) :
  int_repr (Zpos p) m e -> binary_round prec emax sx p 0 = S754_finite sx m e.
Proof.
  intros H. pose proof (int_repr_exp _ _ _ H) as [Hd He]. cbn [Zdigits2] in Hd, He.
  destruct H as [Hb H].
  unfold binary_round. rewrite fexp_eq, Z.add_0_r.
  assert (0 < Zpos (digits2_pos p)) by lia.
  replace (Z.max (Zpos (digits2_pos p) - 53) (-1074)) with e by lia.
  unfold shl_align. rewrite Z.sub_0_r.
  destruct e as [|q|q].
  - apply binary_round_aux_exact; auto; try lia.
    simpl in H. simpl. lia.
  - apply binary_round_aux_exact; auto; try lia.
    rewrite Z.max_l, Z.max_r in H by lia. change (2 ^ 0) with 1 in H.
    rewrite Z.sub_0_r. lia.
  - apply binary_round_aux_exact; auto; try lia.
    rewrite Z.max_r, Z.max_l in H by lia. change (2 ^ 0) with 1 in H.
    rewrite iter_xO, Z.sub_diag. change (- Zneg q) with (Zpos q) in H.
    change (2 ^ 0) with 1. lia.
Qed.

Lemma int_num_repr (s : bool) (k : Z) (m : positive) (e : Z) :
  int_repr (Z.abs k) m e -> int_num s k = S754_finite (k <? 0) m e.
Proof.
  intros H. pose proof (int_repr_pos _ _ _ H). unfold int_num, binary_normalize.
  destruct k as [|p|p]; try lia; simpl in H; now apply binary_round_int.
Qed.

Lemma mul_ten_repr (s : bool) (v : Z) (m m' : positive) (e e' : Z) :
  int_repr v m e -> int_repr (10 * v) m' e' ->
  mul (S754_finite s m e) ten = S754_finite s m' e'.
Proof.
  intros H H'. pose proof (int_repr_pos _ _ _ H) as Hv.
  pose proof (int_repr_exp _ _ _ H) as [_ He].
  pose proof (int_repr_exp _ _ _ H') as [_ He'].
  pose proof (Zdigits2_mono v (10 * v) ltac:(lia)) as Hmono.
  pose proof (bounded_lt m e (proj1 H)) as [_ Hbe].
  pose proof (bounded_lt m' e' (proj1 H')) as [_ Hbe'].
  unfold mul. rewrite ten_eq. unfold SFmul. rewrite xorb_false_r.
  apply binary_round_aux_exact; [apply H'|lia|].
  pose proof (int_repr_shift _ _ _ (1074 + 53) H ltac:(lia) ltac:(lia)) as Hs.
  pose proof (int_repr_shift _ _ _ (1074 + 53) H' ltac:(lia) ltac:(lia)) as Hs'.
  replace (e' - (e + -49)) with ((e' - e) + 49) by lia.
  rewrite pow2_split by lia.
  replace (e' + (1074 + 53)) with ((e' - e) + (e + (1074 + 53))) in Hs' by lia.
  rewrite pow2_split in Hs' by lia.
  pose proof (pow2_pos (e + (1074 + 53)) ltac:(lia)) as Hp.
  assert (Zpos m' * 2 ^ (e' - e) = 10 * Zpos m) as Hx.
  { apply (Z.mul_cancel_r _ _ (2 ^ (e + (1074 + 53)))); [lia|].
    rewrite <- Z.mul_assoc, Hs'.
    replace (10 * Zpos m * 2 ^ (e + (1074 + 53)))
      with (10 * (Zpos m * 2 ^ (e + (1074 + 53)))) by ring.
    rewrite Hs. ring. }
  rewrite Z.mul_assoc, Hx. rewrite Pos2Z.inj_mul.
  change (2 ^ 49) with 562949953421312. lia.
Qed.

Lemma bounded_intro (m : positive) (e : Z) :
  Z.max (Zpos (digits2_pos m) + e - 53) (-1074) = e -> e <= 971 ->
  bounded prec emax m e = true.
Proof.
  intros Hc He. unfold bounded, canonical_mantissa. rewrite fexp_eq.
  apply andb_true_iff. split; [apply Z.eqb_eq; lia|apply Z.leb_le; unfold emax, prec; lia].
Qed.

Lemma int_repr_exists (v : Z) :
  0 < v <= 10 * 2 ^ 50 -> (2 ^ 53 <= v -> Z.even v = true) ->
  exists m e, int_repr v m e.
Proof.
  intros [Hv Hle] Hev. destruct v as [|p|p]; try lia.
  pose proof (digits_bounds p) as [Hl Hu].
  assert (Zpos (digits2_pos p) <= 54) as Hd.
  { apply (Zdigits2_le (Zpos p) 54); [|lia].
    change (2 ^ 54) with 18014398509481984. change (10 * 2 ^ 50) with 11258999068426240 in Hle.
    lia. }
  destruct (Z.le_gt_cases (Zpos (digits2_pos p)) 53) as [H53|H54].
  - pose proof (pow2_pos (53 - Zpos (digits2_pos p)) ltac:(lia)) as Hp.
    exists (Z.to_pos (Zpos p * 2 ^ (53 - Zpos (digits2_pos p)))), (Zpos (digits2_pos p) - 53).
    assert (Zpos (digits2_pos (Z.to_pos (Zpos p * 2 ^ (53 - Zpos (digits2_pos p))))) = 53) as Hdm.
    { change (Zpos (digits2_pos ?x)) with (Zdigits2 (Zpos x)).
      rewrite Z2Pos.id by nia. rewrite Zdigits2_mul_pow2 by lia. lia. }
    split.
    + apply bounded_intro; lia.
    + rewrite Z2Pos.id by nia. rewrite Z.max_r, Z.max_l by lia.
      change (2 ^ 0) with 1. replace (- (Zpos (digits2_pos p) - 53)) with (53 - Zpos (digits2_pos p)) by lia.
      ring.
  - assert (Zpos (digits2_pos p) = 54) as H by lia. rewrite H in Hl.
    change (2 ^ (54 - 1)) with 9007199254740992 in Hl.
    change (2 ^ 53) with 9007199254740992 in Hev.
    specialize (Hev Hl). apply Z.even_spec in Hev as [h Hh].
    exists (Z.to_pos h), 1.
    assert (Zpos (digits2_pos (Z.to_pos h)) = 53) as Hdm.
    { change (Zpos (digits2_pos ?x)) with (Zdigits2 (Zpos x)).
      rewrite Z2Pos.id by lia. apply Zdigits2_unique; [|lia].
      change (2 ^ (53 - 1)) with 4503599627370496. change (2 ^ 53) with 9007199254740992.
      change (10 * 2 ^ 50) with 11258999068426240 in Hle. lia. }
    split.
    + apply bounded_intro; lia.
    + rewrite Z2Pos.id by lia. change (Z.max 1 0) with 1. change (Z.max (- (1)) 0) with 0.
      change (2 ^ 0) with 1. change (2 ^ 1) with 2. lia.
Qed.

Lemma mul_int_ten (s : bool) (K : Z) :
  Z.abs K <= 2 ^ 50 -> mul (int_num s K) ten = int_num s (10 * K).
Proof.
  intros HK. change (2 ^ 50) with 1125899906842624 in HK.
  destruct (Z.eq_dec K 0) as [->|Hnz].
  - simpl. destruct s; reflexivity.
  - destruct (int_repr_exists (Z.abs K)) as (m & e & Hr).
    { change (10 * 2 ^ 50) with 11258999068426240. lia. }
    { change (2 ^ 53) with 9007199254740992. lia. }
    destruct (int_repr_exists (10 * Z.abs K)) as (m' & e' & Hr').
    { change (10 * 2 ^ 50) with 11258999068426240. lia. }
    { intros _. rewrite Z.even_mul. reflexivity. }
    rewrite (int_num_repr s K m e Hr).
    rewrite (int_num_repr s (10 * K) m' e').
    + replace (10 * K <? 0) with (K <? 0).
      * apply (mul_ten_repr _ (Z.abs K)); assumption.
      * destruct (Z.ltb_spec K 0); destruct (Z.ltb_spec (10 * K) 0); auto; lia.
    + replace (Z.abs (10 * K)) with (10 * Z.abs K) by lia. assumption.
Qed.

Lemma tenth_half_up_bound (s : bool) (M : positive) (E : Z) :
  bounded prec emax M E = true ->
  E <= 0 \/ (E = 1 /\ Zpos M < 5 * 2 ^ 50) ->
  Z.abs (tenth_half_up (S754_finite s M E)) <= 2 ^ 50.
Proof.
  intros Hb Hr. pose proof (bounded_lt M E Hb) as [HM HE].
  unfold tenth_half_up.
  set (x := Zpos M * 2 ^ Z.max E 0). set (d := 2 ^ Z.max (- E) 0).
  assert (0 < d) as Hd by (apply pow2_pos; lia).
  change (2 ^ 50) with 1125899906842624 in *. change (2 ^ 53) with 9007199254740992 in *.
  assert (0 < x < 11258999068426240 * d) as Hx.
  { unfold x, d. destruct Hr as [Hr|[-> Hr]].
    - rewrite Z.max_r, Z.max_l by lia. change (2 ^ 0) with 1.
      pose proof (pow2_pos (- E) ltac:(lia)). nia.
    - change (Z.max 1 0) with 1. change (Z.max (- (1)) 0) with 0.
      change (2 ^ 0) with 1. change (2 ^ 1) with 2. lia. }
  pose proof (Z.div_mod (2 * cond_Zopp s x + 10 * d) (20 * d) ltac:(lia)) as Hdm.
  pose proof (Z.mod_pos_bound (2 * cond_Zopp s x + 10 * d) (20 * d) ltac:(lia)) as Hmb.
  destruct s; cbn [cond_Zopp] in *; nia.
Qed.

(** The distance formatter on a finite Number below [10 * 2^50] in
    magnitude. *)
Lemma roundToNearestTen_finite (s : bool) (M : positive) (E : Z) :
  bounded prec emax M E = true ->
  E <= 0 \/ (E = 1 /\ Zpos M < 5 * 2 ^ 50) ->
  roundToNearestTen (S754_finite s M E) =
  int_num s (10 * tenth_half_up (S754_finite s M E)).
Proof.
  intros Hb Hr. unfold roundToNearestTen.
  rewrite round_div_ten by assumption.
  apply mul_int_ten. now apply tenth_half_up_bound.
Qed.

(** ** Rational values *)

Lemma Qpower2_nonneg (e : Z) : 0 <= e -> (Qpower 2 e == inject_Z (2 ^ e))%Q.
Proof. intros He. rewrite Zpower_Qpower by assumption. reflexivity. Qed.

Lemma to_Q_frac (s : bool) (m : positive) (e : Z) :
  (to_Q (S754_finite s m e) ==
   cond_Zopp s (Zpos m * 2 ^ Z.max e 0) # Z.to_pos (2 ^ Z.max (- e) 0))%Q.
Proof.
  assert ((inject_Z (Zpos m) * Qpower 2 e ==
           (Zpos m * 2 ^ Z.max e 0) # Z.to_pos (2 ^ Z.max (- e) 0))%Q) as H.
  { destruct (Z.le_gt_cases 0 e) as [He|He].
    - rewrite Z.max_l, Z.max_r by lia. change (Z.to_pos (2 ^ 0)) with 1%positive.
      rewrite Qpower2_nonneg by assumption. rewrite <- inject_Z_mult. reflexivity.
    - rewrite Z.max_r, Z.max_l by lia. change (2 ^ 0) with 1. rewrite Z.mul_1_r.
      replace e with (- - e) at 1 by lia. rewrite Qpower_opp, Qpower2_nonneg by lia.
      pose proof (pow2_pos (- e) ltac:(lia)) as Hp.
      rewrite (Qmake_Qdiv (Zpos m)). rewrite Z2Pos.id by assumption. reflexivity. }
  unfold to_Q. destruct s; cbn [cond_Zopp]; rewrite H; reflexivity.
Qed.

Lemma Qabs_diff_le (k a : Z) (d : positive) (b : Z) :
  Z.abs (k * Zpos d - a) <= b * Zpos d ->
  (Qabs (inject_Z k - (a # d)) <= inject_Z b)%Q.
Proof.
  intros H. apply Qabs_Qle_condition. unfold Qle, Qminus, Qplus, Qopp, inject_Z.
  cbn [Qnum Qden]. split; lia.
Qed.

Lemma tenth_half_up_close (s : bool) (m : positive) (e : Z) :
  (Qabs (inject_Z (10 * tenth_half_up (S754_finite s m e)) - to_Q (S754_finite s m e)) <= 5)%Q.
Proof.
  rewrite to_Q_frac. unfold tenth_half_up.
  set (a := cond_Zopp s (Zpos m * 2 ^ Z.max e 0)).
  pose proof (pow2_pos (Z.max (- e) 0) ltac:(lia)) as Hd.
  set (d := 2 ^ Z.max (- e) 0) in *.
  change 5%Q with (inject_Z 5).
  apply Qabs_diff_le. rewrite Z2Pos.id by assumption.
  pose proof (Z.div_mod (2 * a + 10 * d) (20 * d) ltac:(lia)) as Hdm.
  pose proof (Z.mod_pos_bound (2 * a + 10 * d) (20 * d) ltac:(lia)) as Hmb.
  nia.
Qed.

Lemma to_Q_int_repr (s : bool) (v : Z) (m : positive) (e : Z) :
  int_repr v m e -> (to_Q (S754_finite s m e) == inject_Z (cond_Zopp s v))%Q.
Proof.
  intros [_ H]. rewrite to_Q_frac. unfold Qeq, inject_Z. cbn [Qnum Qden].
  pose proof (pow2_pos (Z.max (- e) 0) ltac:(lia)) as Hd.
  rewrite Z2Pos.id by assumption. destruct s; cbn [cond_Zopp]; lia.
Qed.

Lemma to_Q_int_num (s : bool) (k : Z) :
  Z.abs k <= 10 * 2 ^ 50 -> (2 ^ 53 <= Z.abs k -> Z.even k = true) ->
  (to_Q (int_num s k) == inject_Z k)%Q.
Proof.
  intros Hk Hev. destruct (Z.eq_dec k 0) as [->|Hnz]; [reflexivity|].
  destruct (int_repr_exists (Z.abs k)) as (m & e & Hr).
  - lia.
  - intros H. specialize (Hev H). destruct k; auto.
  - rewrite (int_num_repr s k m e Hr), (to_Q_int_repr _ (Z.abs k)) by assumption.
    destruct (Z.ltb_spec k 0); cbn [cond_Zopp]; f_equiv; lia.
Qed.

Lemma tenth_half_up_int (s : bool) (v : Z) (m : positive) (e : Z) :
  int_repr v m e ->
  tenth_half_up (S754_finite s m e) = (2 * cond_Zopp s v + 10) / 20.
Proof.
  intros [_ H]. unfold tenth_half_up. rewrite H.
  pose proof (pow2_pos (Z.max (- e) 0) ltac:(lia)) as Hd.
  rewrite cond_Zopp_mul.
  replace (2 * (cond_Zopp s v * 2 ^ Z.max (- e) 0) + 10 * 2 ^ Z.max (- e) 0)
    with ((2 * cond_Zopp s v + 10) * 2 ^ Z.max (- e) 0) by ring.
  apply Z.div_mul_cancel_r; lia.
Qed.

(** ** The range of exactness *)

Lemma range_bound_eq : of_Z 11258999068426240 = S754_finite false 5629499534213120 1.
Proof. vm_compute. reflexivity. Qed.

Lemma in_range_finite (s : bool) (M : positive) (E : Z) :
  in_range (S754_finite s M E) = true ->
  E <= 0 \/ (E = 1 /\ Zpos M < 5629499534213120).
Proof.
  unfold in_range. rewrite range_bound_eq.
  unfold ltb, abs, SFltb, SFabs, SFcompare.
  destruct (E ?= 1) eqn:HE; intros H.
  - apply Z.compare_eq in HE. right. split; [exact HE|].
    destruct (PosDef.Pos.compare_cont Eq M 5629499534213120) eqn:Hc; try discriminate H.
    exact Hc.
  - left. change (E < 1) in HE. lia.
  - discriminate H.
Qed.

(** ** The formatter on its range of exactness *)

Lemma tenth_half_up_sign (s : bool) (m : positive) (e : Z) :
  (s = false -> 0 <= tenth_half_up (S754_finite s m e)) /\
  (s = true -> tenth_half_up (S754_finite s m e) <= 0).
Proof.
  unfold tenth_half_up.
  pose proof (pow2_pos (Z.max (- e) 0) ltac:(lia)) as Hd.
  pose proof (pow2_pos (Z.max e 0) ltac:(lia)) as Hn.
  set (d := 2 ^ Z.max (- e) 0) in *. set (a := Zpos m * 2 ^ Z.max e 0).
  assert (0 < a) by (unfold a; nia).
  split; intros ->; cbn [cond_Zopp].
  - apply Z.div_pos; lia.
  - pose proof (Z.div_mod (2 * - a + 10 * d) (20 * d) ltac:(lia)) as Hdm.
    pose proof (Z.mod_pos_bound (2 * - a + 10 * d) (20 * d) ltac:(lia)) as Hmb.
    nia.
Qed.

Lemma roundToNearestTen_zero (s : bool) : roundToNearestTen (S754_zero s) = S754_zero s.
Proof. destruct s; reflexivity. Qed.

Lemma roundToNearestTen_in_range (x : number) :
  valid x = true -> in_range x = true ->
  roundToNearestTen x = int_num (sign x) (10 * tenth_half_up x) /\
  Z.abs (tenth_half_up x) <= 2 ^ 50.
Proof.
  intros Hv Hr. destruct x as [s|s| |s M E]; try discriminate Hr.
  - split; [apply roundToNearestTen_zero|cbn; lia].
  - pose proof (in_range_finite s M E Hr) as Hr'.
    change 5629499534213120 with (5 * 2 ^ 50) in Hr'.
    split; [now apply roundToNearestTen_finite|now apply tenth_half_up_bound].
Qed.

Lemma to_Q_roundToNearestTen (x : number) :
  valid x = true -> in_range x = true ->
  (to_Q (roundToNearestTen x) == inject_Z (10 * tenth_half_up x))%Q.
Proof.
  intros Hv Hr. destruct (roundToNearestTen_in_range x Hv Hr) as [-> HK].
  change (2 ^ 50) with 1125899906842624 in HK.
  apply to_Q_int_num.
  - change (10 * 2 ^ 50) with 11258999068426240. lia.
  - intros _. rewrite Z.even_mul. reflexivity.
Qed.

Lemma sign_int_num (s : bool) (k : Z) :
  Z.abs k <= 10 * 2 ^ 50 -> (2 ^ 53 <= Z.abs k -> Z.even k = true) ->
  (s = false -> 0 <= k) -> (s = true -> k <= 0) ->
  sign (int_num s k) = s /\ is_finite (int_num s k) = true.
Proof.
  intros Hk Hev Hp Hn. destruct (Z.eq_dec k 0) as [->|Hnz]; [split; reflexivity|].
  destruct (int_repr_exists (Z.abs k)) as (m & e & Hr).
  - lia.
  - intros H. specialize (Hev H). destruct k; auto.
  - rewrite (int_num_repr s k m e Hr). cbn [sign is_finite]. split; auto.
    destruct s; destruct (Z.ltb_spec k 0); auto.
    + specialize (Hn eq_refl). lia.
    + specialize (Hp eq_refl). lia.
Qed.

Lemma sign_roundToNearestTen_in_range (x : number) :
  valid x = true -> in_range x = true ->
  sign (roundToNearestTen x) = sign x /\ is_finite (roundToNearestTen x) = true.
Proof.
  intros Hv Hr. destruct (roundToNearestTen_in_range x Hv Hr) as [-> HK].
  change (2 ^ 50) with 1125899906842624 in HK.
  apply sign_int_num.
  - change (10 * 2 ^ 50) with 11258999068426240. lia.
  - intros _. rewrite Z.even_mul. reflexivity.
  - destruct x as [s|s| |s M E]; try (cbn; lia).
    cbn [sign]. intros ->.
    pose proof (tenth_half_up_sign false M E) as [H _]. specialize (H eq_refl). lia.
  - destruct x as [s|s| |s M E]; try (cbn; lia).
    cbn [sign]. intros ->.
    pose proof (tenth_half_up_sign true M E) as [_ H]. specialize (H eq_refl). lia.
Qed.

Lemma tenth_half_up_close_num (x : number) :
  (Qabs (inject_Z (10 * tenth_half_up x) - to_Q x) <= 5)%Q.
Proof.
  destruct x as [s|s| |s M E]; try (cbn; discriminate).
  apply tenth_half_up_close.
Qed.

Lemma int_num_nonzero (s s' : bool) (k : Z) : k <> 0 -> int_num s k = int_num s' k.
Proof. intros H. destruct k; [contradiction| |]; reflexivity. Qed.

(** The formatter on an integer that is a Number. *)
Lemma roundToNearestTen_int (s0 s : bool) (v : Z) :
  0 < v < 10 * 2 ^ 50 -> (2 ^ 53 <= v -> Z.even v = true) ->
  roundToNearestTen (int_num s0 (cond_Zopp s v)) =
  int_num s (10 * ((2 * cond_Zopp s v + 10) / 20)).
Proof.
  intros Hv Hev. destruct (int_repr_exists v ltac:(lia) Hev) as (m & e & Hr).
  assert (Z.abs (cond_Zopp s v) = v) as Habs by (destruct s; cbn [cond_Zopp]; lia).
  assert ((cond_Zopp s v <? 0) = s) as Hs.
  { destruct s; cbn [cond_Zopp]; [apply Z.ltb_lt|apply Z.ltb_ge]; lia. }
  rewrite (int_num_repr s0 (cond_Zopp s v) m e) by (rewrite Habs; exact Hr).
  rewrite Hs.
  pose proof (int_repr_exp _ _ _ Hr) as [_ He].
  assert (Zdigits2 v <= 54) as Hd.
  { apply Zdigits2_le; [|lia]. change (2 ^ 54) with 18014398509481984.
    change (10 * 2 ^ 50) with 11258999068426240 in Hv. lia. }
  rewrite roundToNearestTen_finite.
  - rewrite (tenth_half_up_int s v m e Hr). reflexivity.
  - apply Hr.
  - destruct (Z.le_gt_cases e 0) as [|Hgt]; [left; assumption|right].
    assert (e = 1) as -> by lia. split; [reflexivity|].
    destruct Hr as [_ Hval]. change (Z.max 1 0) with 1 in Hval.
    change (Z.max (- (1)) 0) with 0 in Hval. change (2 ^ 0) with 1 in Hval.
    change (2 ^ 1) with 2 in Hval.
    change (5 * 2 ^ 50) with 5629499534213120.
    change (10 * 2 ^ 50) with 11258999068426240 in Hv. lia.
Qed.

Lemma roundToNearestTen_idempotent_in_range (x : number) :
  valid x = true -> in_range x = true ->
  roundToNearestTen (roundToNearestTen x) = roundToNearestTen x.
Proof.
  intros Hv Hr. destruct (roundToNearestTen_in_range x Hv Hr) as [-> HK].
  set (K := tenth_half_up x) in *. change (2 ^ 50) with 1125899906842624 in HK.
  destruct (Z.eq_dec K 0) as [->|Hnz].
  - apply roundToNearestTen_zero.
  - destruct (Z.eq_dec (Z.abs K) 1125899906842624) as [Hmax|Hlt].
    + assert (K = 1125899906842624 \/ K = - 1125899906842624) as [-> | ->] by lia;
        destruct (sign x); vm_compute; reflexivity.
    + pose proof (roundToNearestTen_int (sign x) (K <? 0) (10 * Z.abs K)) as H.
      assert (cond_Zopp (K <? 0) (10 * Z.abs K) = 10 * K) as Hc.
      { destruct (Z.ltb_spec K 0); cbn [cond_Zopp]; lia. }
      rewrite Hc in H. rewrite H.
      * replace ((2 * (10 * K) + 10) / 20) with K.
        -- apply int_num_nonzero. lia.
        -- apply (Z.div_unique_pos _ _ K 10); lia.
      * change (10 * 2 ^ 50) with 11258999068426240. lia.
      * intros _. rewrite Z.even_mul. reflexivity.
Qed.

(** ** Beyond the range of exactness: the sign and the magnitude survive *)



Lemma bounded_pack (sx : bool) (r e : Z) :
  0 < r -> -1074 <= e -> nonzero_with_sign sx (pack sx r e).
Proof.
  intros Hr He. rewrite pack_eq by lia. rewrite fexp_eq.
  set (n := Z.max 0 (Z.max (Zdigits2 r + e - 53) (-1074) - e)).
  assert (Zdigits2 r = Zdigits2 r) as _ by reflexivity.
  destruct r as [|p|p]; try lia. cbn [Zdigits2] in n.
  pose proof (digits_bounds p) as [Hl Hu].
  assert (0 < Zpos (digits2_pos p)) as Hd by lia.
  assert (0 <= n <= Zpos (digits2_pos p) - 1) as Hn by (unfold n; lia).
  assert (2 ^ n <= 2 ^ (Zpos (digits2_pos p) - 1)) as Hp by (apply Z.pow_le_mono_r; lia).
  pose proof (pow2_pos n ltac:(lia)) as Hpn.
  assert (0 < Zpos p / 2 ^ n) as Hq by (apply Z.div_str_pos; lia).
  destruct (Zpos p / 2 ^ n) as [|q|q] eqn:Hdiv; try lia.
  destruct (e + n <=? emax - prec) eqn:Hle; [right|left; reflexivity].
  exists q, (e + n). reflexivity.
Qed.

Lemma mul_ten_nonzero (s : bool) (m : positive) (e : Z) :
  bounded prec emax m e = true ->
  nonzero_with_sign s (mul (S754_finite s m e) ten).
Proof.
  intros Hb. pose proof (bounded_lt m e Hb) as [_ He].
  unfold mul. rewrite ten_eq. unfold SFmul. rewrite xorb_false_r.
  rewrite (binary_round_aux_rne _ _ _ _ (Zpos (m * 5629499534213120)) 1);
    [|lia|lia|apply located_exact].
  rewrite fexp_eq. cbn [Zdigits2].
  set (N := (m * 5629499534213120)%positive).
  pose proof (digits_bounds N) as [Hl Hu].
  assert (2 ^ 52 <= Zpos N) as HN.
  { unfold N. rewrite Pos2Z.inj_mul. change (2 ^ 52) with 4503599627370496. lia. }
  assert (53 <= Zpos (digits2_pos N)) as Hd.
  { destruct (Z.le_gt_cases 53 (Zpos (digits2_pos N))) as [|Hgt]; auto.
    assert (2 ^ Zpos (digits2_pos N) <= 2 ^ 52) by (apply Z.pow_le_mono_r; lia). lia. }
  set (n := Z.max 0 (Z.max (Zpos (digits2_pos N) + (e + -49) - 53) (-1074) - (e + -49))).
  assert (0 <= n <= Zpos (digits2_pos N) - 1) as Hn by (unfold n; lia).
  assert (2 ^ n <= 2 ^ (Zpos (digits2_pos N) - 1)) as Hp by (apply Z.pow_le_mono_r; lia).
  pose proof (pow2_pos n ltac:(lia)) as Hpn.
  apply bounded_pack.
  - assert (1 <= rne (Zpos N) (2 ^ n * 1)); [apply rne_lower; lia|lia].
  - unfold n. lia.
Qed.

Lemma roundToNearestTen_large (s : bool) (M : positive) (E : Z) :
  bounded prec emax M E = true -> 1 <= E ->
  nonzero_with_sign s (roundToNearestTen (S754_finite s M E)).
Proof.
  intros Hb HE. pose proof (bounded_lt M E Hb) as [_ HE'].
  destruct (div_ten_normal s M E Hb ltac:(lia)) as (n & Hn01 & _ & Hm2 & Hdiv).
  unfold roundToNearestTen. rewrite Hdiv. rewrite pack_small by lia.
  destruct (rne (Zpos M * 2 ^ 4) (2 ^ n * 10)) as [|p|p] eqn:Hp;
    [change (2 ^ 52) with 4503599627370496 in Hm2; lia| |lia].
  assert (Zpos (digits2_pos p) = 53) as Hd by (apply digits_unique; exact Hm2).
  change (2 ^ 52) with 4503599627370496 in Hm2.
  change (2 ^ 53) with 9007199254740992 in Hm2.
  set (eq := E - 4 + n) in *.
  cbn [Math_round]. destruct (Z.leb_spec 0 eq) as [Hge|Hlt].
  - apply mul_ten_nonzero. apply bounded_intro; lia.
  - set (k := (2 * cond_Zopp s (Zpos p) + 2 ^ (- eq)) / 2 ^ (1 - eq)).
    assert (eq = -1 \/ eq = -2 \/ eq = -3) as Heq by lia.
    assert (2 ^ 49 - 1 <= Z.abs k <= 2 ^ 52 + 1 /\ (k <? 0) = s) as [Hk Hs].
    { change (2 ^ 49) with 562949953421312. change (2 ^ 52) with 4503599627370496.
      unfold k.
      destruct Heq as [-> | [-> | ->]];
        [change (2 ^ (- (-1))) with 2; change (2 ^ (1 - (-1))) with 4
        |change (2 ^ (- (-2))) with 4; change (2 ^ (1 - (-2))) with 8
        |change (2 ^ (- (-3))) with 8; change (2 ^ (1 - (-3))) with 16];
        destruct s; cbn [cond_Zopp];
        match goal with
        | |- context [?a / ?b] =>
            pose proof (Z.div_mod a b ltac:(lia));
            pose proof (Z.mod_pos_bound a b ltac:(lia))
        end;
        (split; [lia|]);
        [apply Z.ltb_lt|apply Z.ltb_ge|apply Z.ltb_lt|apply Z.ltb_ge
        |apply Z.ltb_lt|apply Z.ltb_ge]; lia. }
    change (2 ^ 49) with 562949953421312 in Hk. change (2 ^ 52) with 4503599627370496 in Hk.
    destruct (int_repr_exists (Z.abs k)) as (mk & ek & Hr).
    + change (10 * 2 ^ 50) with 11258999068426240. lia.
    + change (2 ^ 53) with 9007199254740992. lia.
    + rewrite (int_num_repr s k mk ek Hr), Hs.
      apply mul_ten_nonzero. apply Hr.
Qed.

Lemma out_of_range_finite (s : bool) (M : positive) (E : Z) :
  in_range (S754_finite s M E) = false -> 1 <= E.
Proof.
  unfold in_range. rewrite range_bound_eq.
  unfold ltb, abs, SFltb, SFabs, SFcompare.
  destruct (E ?= 1) eqn:HE; intros H.
  - apply Z.compare_eq in HE. lia.
  - discriminate H.
  - change (E > 1) in HE. lia.
Qed.

(** The formatter never changes the sign bit and makes no [NaN]. *)
Lemma sign_roundToNearestTen (x : number) :
  valid x = true -> is_nan x = false ->
  sign (roundToNearestTen x) = sign x /\ is_nan (roundToNearestTen x) = false.
Proof.
  intros Hv Hn. destruct (in_range x) eqn:Hr.
  - destruct (sign_roundToNearestTen_in_range x Hv Hr) as [Hs Hf]. split; auto.
    destruct (roundToNearestTen x); auto; discriminate Hf.
  - destruct x as [s|s| |s M E]; try discriminate Hn.
    + discriminate Hr.
    + destruct s; split; reflexivity.
    + pose proof (out_of_range_finite s M E Hr) as HE.
      destruct (roundToNearestTen_large s M E Hv HE) as [-> | (m & e & ->)];
        split; reflexivity.
Qed.

Lemma minus_five_eq : of_Z (-5) = S754_finite true 5629499534213120 (-50).
Proof. vm_compute. reflexivity. Qed.

Lemma compare_cont_Gt (p q : positive) :
  PosDef.Pos.compare_cont Eq p q = Gt -> (q < p)%positive.
Proof.
  intros H. apply Pos.compare_gt_iff. rewrite <- H. symmetry.
  rewrite Pos.compare_cont_spec. unfold Pos.switch_Eq. destruct (p ?= q)%positive; reflexivity.
Qed.

Lemma below_minus_five (x : number) :
  ltb x (of_Z (-5)) = true ->
  x = S754_infinity true \/
  exists M E, x = S754_finite true M E /\
              (-50 < E \/ (E = -50 /\ 5629499534213120 < Zpos M)).
Proof.
  rewrite minus_five_eq. unfold ltb, SFltb.
  destruct x as [s|s| |s M E]; cbn [SFcompare].
  - destruct s; intros H; discriminate H.
  - destruct s; intros H; [auto|discriminate H].
  - intros H; discriminate H.
  - destruct s; intros H; [|discriminate H]. right. exists M, E. split; auto.
    destruct (E ?= -50) eqn:HE.
    + apply Z.compare_eq in HE. right. split; auto.
      destruct (PosDef.Pos.compare_cont Eq M 5629499534213120) eqn:Hc;
        cbn [CompOpp] in H; try discriminate H.
      apply compare_cont_Gt in Hc. lia.
    + discriminate H.
    + left. change (E > -50) in HE. lia.
Qed.

(** A distance below [-5] is formatted to a negative Number: nothing
    clamps it to zero. *)
Lemma roundToNearestTen_below_minus_five (x : number) :
  valid x = true -> ltb x (of_Z (-5)) = true ->
  ltb (roundToNearestTen x) (S754_zero false) = true.
Proof.
  intros Hv Hlt. destruct (below_minus_five x Hlt) as [-> | (M & E & -> & HE)];
    [reflexivity|].
  destruct (in_range (S754_finite true M E)) eqn:Hr.
  - destruct (roundToNearestTen_in_range _ Hv Hr) as [-> HK].
    cbn [sign]. set (K := tenth_half_up (S754_finite true M E)) in *.
    assert (K <= -1) as HK1.
    { unfold K, tenth_half_up. cbn [cond_Zopp].
      pose proof (bounded_normal M E Hv ltac:(lia)) as [_ HM].
      change (2 ^ 52) with 4503599627370496 in HM.
      pose proof (pow2_pos (Z.max (- E) 0) ltac:(lia)) as Hd.
      pose proof (pow2_pos (Z.max E 0) ltac:(lia)) as Hn.
      assert (5 * 2 ^ Z.max (- E) 0 < Zpos M * 2 ^ Z.max E 0) as Hgt.
      { destruct HE as [HE | [-> HE]].
        - assert (2 ^ Z.max (- E) 0 <= 2 ^ 49) as Hp by (apply Z.pow_le_mono_r; lia).
          change (2 ^ 49) with 562949953421312 in Hp. nia.
        - change (2 ^ Z.max (- -50) 0) with 1125899906842624.
          change (2 ^ Z.max (-50) 0) with 1. lia. }
      set (d := 2 ^ Z.max (- E) 0) in *. set (a := Zpos M * 2 ^ Z.max E 0) in *.
      pose proof (Z.div_mod (2 * - a + 10 * d) (20 * d) ltac:(lia)) as Hdm.
      pose proof (Z.mod_pos_bound (2 * - a + 10 * d) (20 * d) ltac:(lia)) as Hmb.
      nia. }
    change (2 ^ 50) with 1125899906842624 in HK.
    destruct (int_repr_exists (Z.abs (10 * K))) as (m & e & Hrep).
    + change (10 * 2 ^ 50) with 11258999068426240. lia.
    + intros _. destruct K; try lia. reflexivity.
    + rewrite (int_num_repr true (10 * K) m e Hrep).
      replace (10 * K <? 0) with true by (symmetry; apply Z.ltb_lt; lia).
      reflexivity.
  - pose proof (out_of_range_finite true M E Hr) as HE1.
    destruct (roundToNearestTen_large true M E Hv HE1) as [-> | (m & e & ->)];
      reflexivity.
Qed.

(** [tenth_half_up] is the floor of the tenth plus one half. *)
Lemma tenth_half_up_Qfloor (s : bool) (m : positive) (e : Z) :
  tenth_half_up (S754_finite s m e) =
  Qfloor (to_Q (S754_finite s m e) / 10 + (1 # 2))%Q.
Proof.
  rewrite to_Q_frac. unfold tenth_half_up.
  set (a := cond_Zopp s (Zpos m * 2 ^ Z.max e 0)).
  pose proof (pow2_pos (Z.max (- e) 0) ltac:(lia)) as Hd.
  set (d := 2 ^ Z.max (- e) 0) in *.
  assert (((a # Z.to_pos d) / 10 + (1 # 2) == (2 * a + 10 * d) # Z.to_pos (20 * d))%Q) as H.
  { unfold Qeq, Qdiv, Qmult, Qinv, Qplus. cbn [Qnum Qden].
    rewrite !Pos2Z.inj_mul, !Z2Pos.id by lia. ring. }
  rewrite H. unfold Qfloor. rewrite Z2Pos.id by lia. reflexivity.
Qed.

Lemma tenth_half_up_tie (x : number) :
  (Qabs (inject_Z (10 * tenth_half_up x) - to_Q x) == 5)%Q ->
  (to_Q x == inject_Z (10 * tenth_half_up x - 5))%Q.
Proof.
  destruct x as [s|s| |s m e]; try (cbn; discriminate).
  rewrite to_Q_frac. unfold tenth_half_up.
  set (a := cond_Zopp s (Zpos m * 2 ^ Z.max e 0)).
  pose proof (pow2_pos (Z.max (- e) 0) ltac:(lia)) as Hd.
  set (d := 2 ^ Z.max (- e) 0) in *.
  pose proof (Z.div_mod (2 * a + 10 * d) (20 * d) ltac:(lia)) as Hdm.
  pose proof (Z.mod_pos_bound (2 * a + 10 * d) (20 * d) ltac:(lia)) as Hmb.
  set (K := (2 * a + 10 * d) / (20 * d)) in *.
  unfold Qeq, Qabs, Qminus, Qplus, Qopp, inject_Z. cbn [Qnum Qden].
  rewrite !Z2Pos.id by lia. intros H. nia.
Qed.

(** * The claims about the distance formatter *)

(** C3, counterexample.  At the non-negative finite Number
    [11258999068426244], which is [10 * 2^50 + 4], the quotient by ten is
    rounded up to a half, [Math.round] rounds that up again, and the
    formatter returns [11258999068426250], six away from the input. *)
Lemma rounding_bound_fails_beyond_range :
  valid (of_Z 11258999068426244) = true /\
  is_finite (of_Z 11258999068426244) = true /\
  sign (of_Z 11258999068426244) = false /\
  roundToNearestTen (of_Z 11258999068426244) = of_Z 11258999068426250 /\
  ~ (Qabs (to_Q (roundToNearestTen (of_Z 11258999068426244))
           - to_Q (of_Z 11258999068426244)) <= 5)%Q.
Proof.
  repeat split; try (vm_compute; reflexivity).
  intros H. vm_compute in H. apply H. reflexivity.
Qed.

(** C3, as amended.  For every non-negative finite Number [m] below
    [10 * 2^50 = 11258999068426240], [roundToNearestTen m] is a finite
    Number whose value is ten times an integer and lies within 5 of [m],
    and the distance is 5 only when [m] is an odd multiple of 5. *)
Theorem rounding_within_five_in_range (m : number) :
  valid m = true -> sign m = false -> in_range m = true ->
  exists k : Z,
    is_finite (roundToNearestTen m) = true /\
    (to_Q (roundToNearestTen m) == inject_Z (10 * k))%Q /\
    (Qabs (to_Q (roundToNearestTen m) - to_Q m) <= 5)%Q /\
    ((Qabs (to_Q (roundToNearestTen m) - to_Q m) == 5)%Q ->
     (to_Q m == inject_Z (10 * k - 5))%Q).
Proof.
  intros Hv _ Hr. exists (tenth_half_up m).
  pose proof (to_Q_roundToNearestTen m Hv Hr) as Hq.
  destruct (sign_roundToNearestTen_in_range m Hv Hr) as [_ Hf].
  repeat split; auto.
  - rewrite Hq. apply tenth_half_up_close_num.
  - rewrite Hq. apply tenth_half_up_tie.
Qed.

Lemma rounding_within_five_in_range_witness :
  exists k : Z,
    is_finite (roundToNearestTen (of_Z 347)) = true /\
    (to_Q (roundToNearestTen (of_Z 347)) == inject_Z (10 * k))%Q /\
    (Qabs (to_Q (roundToNearestTen (of_Z 347)) - to_Q (of_Z 347)) <= 5)%Q /\
    ((Qabs (to_Q (roundToNearestTen (of_Z 347)) - to_Q (of_Z 347)) == 5)%Q ->
     (to_Q (of_Z 347) == inject_Z (10 * k - 5))%Q).
Proof.
  apply (rounding_within_five_in_range (of_Z 347)); vm_compute; reflexivity.
Defined.

(** C4.  [round(0) = 0], [round(4) = 0], [round(5) = 10], [round(12) = 10],
    [round(17) = 20] and [round(123.4) = 120], where [123.4] is the Number
    nearest to that decimal. *)
Theorem roundToNearestTen_examples :
  roundToNearestTen (of_Z 0) = of_Z 0 /\
  roundToNearestTen (of_Z 4) = of_Z 0 /\
  roundToNearestTen (of_Z 5) = of_Z 10 /\
  roundToNearestTen (of_Z 12) = of_Z 10 /\
  roundToNearestTen (of_Z 17) = of_Z 20 /\
  literal_123_4 = div (of_Z 1234) ten /\
  (Qabs (to_Q literal_123_4 - (1234 # 10)) <= 1 # 140737488355328)%Q /\
  roundToNearestTen literal_123_4 = of_Z 120.
Proof.
  repeat split; try (vm_compute; reflexivity).
  vm_compute. intros H. discriminate H.
Qed.

(** C5, counterexample.  At the finite Number [43876051688187416] the
    formatter returns [43876051688187424], and formatting that again
    returns [43876051688187432]. *)
Lemma idempotence_fails_beyond_range :
  valid (of_Z 43876051688187416) = true /\
  is_finite (of_Z 43876051688187416) = true /\
  roundToNearestTen (of_Z 43876051688187416) = of_Z 43876051688187424 /\
  roundToNearestTen (of_Z 43876051688187424) = of_Z 43876051688187432 /\
  roundToNearestTen (roundToNearestTen (of_Z 43876051688187416))
  <> roundToNearestTen (of_Z 43876051688187416).
Proof.
  repeat split; try (vm_compute; reflexivity).
  vm_compute. intros H. discriminate H.
Qed.

(** C5, as amended.  For every Number [m] that is [NaN], infinite, or
    finite and below [10 * 2^50] in magnitude, formatting the formatted
    value changes nothing. *)
Theorem roundToNearestTen_idempotent (m : number) :
  valid m = true -> is_finite m = false \/ in_range m = true ->
  roundToNearestTen (roundToNearestTen m) = roundToNearestTen m.
Proof.
  intros Hv [Hf | Hr].
  - destruct m as [s|s| |s M E]; try discriminate Hf.
    + destruct s; reflexivity.
    + reflexivity.
  - now apply roundToNearestTen_idempotent_in_range.
Qed.

Lemma roundToNearestTen_idempotent_witness :
  roundToNearestTen (roundToNearestTen literal_123_4) = roundToNearestTen literal_123_4.
Proof.
  apply (roundToNearestTen_idempotent literal_123_4);
    [vm_compute; reflexivity|right; vm_compute; reflexivity].
Defined.

(** C7, counterexample.  The formatter maps the finite Number [2^60] to
    itself, and [2^60] is no multiple of 10. *)
Lemma multiple_of_ten_fails_beyond_range :
  valid (of_Z (2 ^ 60)) = true /\
  is_finite (of_Z (2 ^ 60)) = true /\
  roundToNearestTen (of_Z (2 ^ 60)) = of_Z (2 ^ 60) /\
  (to_Q (of_Z (2 ^ 60)) == inject_Z (2 ^ 60))%Q /\
  forall k : Z, ~ (to_Q (roundToNearestTen (of_Z (2 ^ 60))) == inject_Z (10 * k))%Q.
Proof.
  repeat split; try (vm_compute; reflexivity).
  intros k H.
  assert ((to_Q (roundToNearestTen (of_Z (2 ^ 60))) == inject_Z 1152921504606846976)%Q) as E
    by (vm_compute; reflexivity).
  rewrite E in H. unfold Qeq, inject_Z in H. cbn [Qnum Qden] in H. lia.
Qed.

(** C7, as amended.  For every finite Number [m], [roundToNearestTen m]
    has the sign of [m]: it keeps the sign bit and is no [NaN], so it is
    not below zero when [m] is non-negative and not above zero when [m] is
    negative.  For every finite Number [m] below [10 * 2^50] in magnitude
    it is moreover a finite Number whose value is ten times an integer,
    an integer that is not negative when [m] is not and not positive when
    [m] is negative. *)
Theorem rounded_distance_invariant (m : number) :
  valid m = true -> is_finite m = true ->
  (sign (roundToNearestTen m) = sign m /\
   is_nan (roundToNearestTen m) = false /\
   (sign m = false -> ltb (roundToNearestTen m) (S754_zero false) = false) /\
   (sign m = true -> ltb (S754_zero false) (roundToNearestTen m) = false)) /\
  (in_range m = true ->
   exists k : Z,
     is_finite (roundToNearestTen m) = true /\
     (to_Q (roundToNearestTen m) == inject_Z (10 * k))%Q /\
     (sign m = false -> 0 <= k) /\
     (sign m = true -> k <= 0)).
Proof.
  intros Hv Hfin. split.
  - assert (is_nan m = false) as Hn by (destruct m; auto; discriminate Hfin).
    destruct (sign_roundToNearestTen m Hv Hn) as [Hs Hnan].
    repeat split; auto.
    + intros H. rewrite H in Hs.
      destruct (roundToNearestTen m) as [s|s| |s M E]; cbn [sign] in Hs;
        try discriminate Hnan; subst s; reflexivity.
    + intros H. rewrite H in Hs.
      destruct (roundToNearestTen m) as [s|s| |s M E]; cbn [sign] in Hs;
        try discriminate Hnan; subst s; reflexivity.
  - intros Hr. exists (tenth_half_up m).
    pose proof (to_Q_roundToNearestTen m Hv Hr) as Hq.
    destruct (sign_roundToNearestTen_in_range m Hv Hr) as [_ Hf].
    repeat split; auto.
    + destruct m as [s|s| |s M E]; try (cbn; lia).
      cbn [sign]. intros ->. now apply (tenth_half_up_sign false M E).
    + destruct m as [s|s| |s M E]; try (cbn; lia).
      cbn [sign]. intros ->. now apply (tenth_half_up_sign true M E).
Qed.

Lemma rounded_distance_invariant_witness :
  (sign (roundToNearestTen (of_Z (- 2 ^ 60))) = sign (of_Z (- 2 ^ 60)) /\
   is_nan (roundToNearestTen (of_Z (- 2 ^ 60))) = false /\
   (sign (of_Z (- 2 ^ 60)) = false ->
    ltb (roundToNearestTen (of_Z (- 2 ^ 60))) (S754_zero false) = false) /\
   (sign (of_Z (- 2 ^ 60)) = true ->
    ltb (S754_zero false) (roundToNearestTen (of_Z (- 2 ^ 60))) = false)) /\
  (exists k : Z,
     is_finite (roundToNearestTen (of_Z (-17))) = true /\
     (to_Q (roundToNearestTen (of_Z (-17))) == inject_Z (10 * k))%Q /\
     (sign (of_Z (-17)) = false -> 0 <= k) /\
     (sign (of_Z (-17)) = true -> k <= 0)).
Proof.
  split.
  - apply (rounded_distance_invariant (of_Z (- 2 ^ 60))); vm_compute; reflexivity.
  - apply (rounded_distance_invariant (of_Z (-17))); vm_compute; reflexivity.
Defined.

(** C8.  Nothing guards the formatter: [NaN] is returned as [NaN]; every
    other Number keeps its sign bit and never becomes [NaN]; every Number
    below [-5], [-Infinity] included, is formatted to a negative Number and
    not clamped to zero; and a negative Number of magnitude below
    [10 * 2^50] is formatted to ten times the floor of its tenth plus one
    half, which is what dividing, rounding and multiplying give. *)
Theorem roundToNearestTen_unguarded (m : number) :
  valid m = true ->
  (is_nan m = true -> roundToNearestTen m = NaN) /\
  (is_nan m = false ->
   sign (roundToNearestTen m) = sign m /\ is_nan (roundToNearestTen m) = false) /\
  (ltb m (of_Z (-5)) = true -> ltb (roundToNearestTen m) (S754_zero false) = true) /\
  (sign m = true -> in_range m = true ->
   (to_Q (roundToNearestTen m) == inject_Z (10 * Qfloor (to_Q m / 10 + (1 # 2))))%Q).
Proof.
  intros Hv. repeat split.
  - destruct m; try discriminate. reflexivity.
  - now apply sign_roundToNearestTen.
  - now apply sign_roundToNearestTen.
  - now apply roundToNearestTen_below_minus_five.
  - intros _ Hr. rewrite (to_Q_roundToNearestTen m Hv Hr).
    destruct m as [s|s| |s M E]; try reflexivity.
    rewrite tenth_half_up_Qfloor. reflexivity.
Qed.

Lemma roundToNearestTen_unguarded_witness :
  (is_nan (of_Z (-12)) = true -> roundToNearestTen (of_Z (-12)) = NaN) /\
  (is_nan (of_Z (-12)) = false ->
   sign (roundToNearestTen (of_Z (-12))) = sign (of_Z (-12)) /\
   is_nan (roundToNearestTen (of_Z (-12))) = false) /\
  (ltb (of_Z (-12)) (of_Z (-5)) = true ->
   ltb (roundToNearestTen (of_Z (-12))) (S754_zero false) = true) /\
  (sign (of_Z (-12)) = true -> in_range (of_Z (-12)) = true ->
   (to_Q (roundToNearestTen (of_Z (-12)))
    == inject_Z (10 * Qfloor (to_Q (of_Z (-12)) / 10 + (1 # 2))))%Q).
Proof.
  apply (roundToNearestTen_unguarded (of_Z (-12))). vm_compute. reflexivity.
Defined.

(** C9.  A tie is rounded toward +Infinity.  Every non-negative odd
    multiple of 5 that is a Number, [10 * j + 5] below [2^53], is formatted
    to [10 * j + 10], and its negation to [-(10 * j)], which is [-0] for
    [j = 0]: [round(5) = 10] and [round(15) = 20], not [0] as rounding
    halves to even would give for 5, and [round(-5) = -0] and
    [round(-15) = -10], not [-10] and [-20] as rounding halves away from
    zero would give. *)
Theorem ties_round_toward_positive_infinity (j : Z) :
  0 <= j -> 10 * j + 5 < 9007199254740992 ->
  roundToNearestTen (of_Z (10 * j + 5)) = of_Z (10 * j + 10) /\
  roundToNearestTen (of_Z (- (10 * j + 5))) = int_num true (- (10 * j)).
Proof.
  intros Hj Hb. split.
  - pose proof (roundToNearestTen_int false false (10 * j + 5)) as H.
    cbn [cond_Zopp] in H. unfold of_Z. rewrite H.
    + f_equal. replace ((2 * (10 * j + 5) + 10) / 20) with (j + 1); [ring|].
      apply (Z.div_unique_pos _ _ (j + 1) 0); lia.
    + change (10 * 2 ^ 50) with 11258999068426240. lia.
    + change (2 ^ 53) with 9007199254740992. lia.
  - pose proof (roundToNearestTen_int false true (10 * j + 5)) as H.
    cbn [cond_Zopp] in H. unfold of_Z. rewrite H.
    + f_equal. replace ((2 * - (10 * j + 5) + 10) / 20) with (- j); [ring|].
      apply (Z.div_unique_pos _ _ (- j) 0); lia.
    + change (10 * 2 ^ 50) with 11258999068426240. lia.
    + change (2 ^ 53) with 9007199254740992. lia.
Qed.

Lemma ties_round_toward_positive_infinity_witness :
  (roundToNearestTen (of_Z 5) = of_Z 10 /\
   roundToNearestTen (of_Z (-5)) = S754_zero true) /\
  (roundToNearestTen (of_Z 15) = of_Z 20 /\
   roundToNearestTen (of_Z (-15)) = of_Z (-10)).
Proof.
  split.
  - apply (ties_round_toward_positive_infinity 0); lia.
  - apply (ties_round_toward_positive_infinity 1); lia.
Defined.

(** * The claims about [render] *)

Lemma OptionalGet_truthy (st nav : value) :
  OptionalGet st "Navigating" = Normal nav -> ToBoolean nav = true ->
  Get st "Navigating" = Normal nav.
Proof.
  destruct st; cbn [OptionalGet]; intros H Ht; auto;
    injection H as <-; discriminate Ht.
Qed.

(** C1.  For every trip state that does not carry the [Navigating]
    variant, [null] and [undefined] included, [render] returns nothing: no
    template, hence no [maneuver-image] element and no text or distance,
    and no exception. *)
Theorem render_nothing_without_Navigating
  (StringToNumber : string -> number) (st : value) :
  has_variant "Navigating" st = false ->
  render StringToNumber {| tripState := st |} = Normal None /\
  maneuver_images None = [].
Proof.
  intros H. split; [|reflexivity]. unfold render. cbn [tripState].
  destruct st as [| | b | n | s | props]; try reflexivity.
  cbn [has_variant] in H. cbn [OptionalGet Get bind].
  destruct (own_property "Navigating" props); [discriminate H|reflexivity].
Qed.

Lemma render_nothing_without_Navigating_witness :
  render (fun _ => NaN) {| tripState := VObject [("Idle"%string, VObject [])] |} = Normal None /\
  maneuver_images None = [].
Proof.
  apply (render_nothing_without_Navigating (fun _ => NaN) (VObject [("Idle"%string, VObject [])])).
  reflexivity.
Defined.

(** C2.  For every trip state whose [Navigating] payload is truthy and has
    the parts that [render] reads, the template carries the payload's
    [visualInstruction] unchanged for the [maneuver-image] element and its
    [visualInstruction.primaryContent.text] unchanged as the instruction
    text, beside the formatted distance. *)
Theorem render_Navigating_passes_through
  (StringToNumber : string -> number) (st nav vi pc text p d : value) (meters : number) :
  OptionalGet st "Navigating" = Normal nav ->
  ToBoolean nav = true ->
  Get nav "visualInstruction" = Normal vi ->
  Get vi "primaryContent" = Normal pc ->
  Get pc "text" = Normal text ->
  Get nav "progress" = Normal p ->
  Get p "distanceToNextManeuver" = Normal d ->
  ToNumber StringToNumber d = Normal meters ->
  render StringToNumber {| tripState := st |} =
  Normal (Some {| visualInstruction := vi;
                  instruction := text;
                  distance := roundToNearestTen meters |}).
Proof.
  intros Hnav Ht Hvi Hpc Htext Hp Hd Hm.
  pose proof (OptionalGet_truthy st nav Hnav Ht) as Hget.
  unfold render. cbn [tripState].
  rewrite Hnav. cbn [bind]. rewrite Ht, Hget. cbn [bind].
  rewrite Hvi. cbn [bind]. rewrite Hpc. cbn [bind]. rewrite Htext. cbn [bind].
  rewrite Hp. cbn [bind]. rewrite Hd. cbn [bind]. rewrite Hm. reflexivity.
Qed.

Lemma render_Navigating_passes_through_witness :
  render (fun _ => NaN) {| tripState := turn_right_state |} =
  Normal (Some {| visualInstruction := turn_right_instruction;
                  instruction := VString "Turn right";
                  distance := roundToNearestTen (of_Z 347) |}).
Proof.
  apply (render_Navigating_passes_through (fun _ => NaN) turn_right_state
           (VObject [("visualInstruction"%string, turn_right_instruction);
                     ("progress"%string,
                      VObject [("distanceToNextManeuver"%string, VNumber (of_Z 347))])])
           turn_right_instruction
           (VObject [("text"%string, VString "Turn right")])
           (VString "Turn right")
           (VObject [("distanceToNextManeuver"%string, VNumber (of_Z 347))])
           (VNumber (of_Z 347)) (of_Z 347)); reflexivity.
Defined.

(** C6.  Pushing the [Navigating] state with the text [Turn right] and the
    distance 347 renders the text [Turn right], the distance 350 and one
    [maneuver-image] element that is given the state's visual instruction;
    pushing [{Idle: {}}] or [null] renders nothing and no [maneuver-image]
    element. *)
Theorem render_end_to_end (StringToNumber : string -> number) :
  render StringToNumber (set_tripState turn_right_state new_InstructionsView) =
  Normal (Some {| visualInstruction := turn_right_instruction;
                  instruction := VString "Turn right";
                  distance := of_Z 350 |}) /\
  maneuver_images (Some {| visualInstruction := turn_right_instruction;
                           instruction := VString "Turn right";
                           distance := of_Z 350 |}) = [turn_right_instruction] /\
  render StringToNumber
    (set_tripState (VObject [("Idle"%string, VObject [])]) new_InstructionsView) = Normal None /\
  render StringToNumber (set_tripState VNull new_InstructionsView) = Normal None /\
  render StringToNumber new_InstructionsView = Normal None /\
  maneuver_images None = [].
Proof.
  repeat split; vm_compute; reflexivity.
Qed.

(** C10.  The branch is taken by the truthiness of the [Navigating]
    property and not by its presence: when the property is there with a
    falsy value, [null], [undefined], [0], [false] or the empty string
    among them, [render] returns nothing, as it does for [Idle] or a null
    state. *)
Theorem render_decides_by_truthiness
  (StringToNumber : string -> number) (props : list (string * value)) (v : value) :
  own_property "Navigating" props = Some v ->
  In v falsy_values \/ ToBoolean v = false ->
  has_variant "Navigating" (VObject props) = true /\
  render StringToNumber {| tripState := VObject props |} = Normal None.
Proof.
  intros Hp Hf.
  assert (ToBoolean v = false) as Hv.
  { destruct Hf as [Hin | H]; auto.
    cbn [falsy_values In] in Hin.
    destruct Hin as [<- | [<- | [<- | [<- | [<- | []]]]]]; reflexivity. }
  split.
  - cbn [has_variant]. now rewrite Hp.
  - unfold render. cbn [tripState OptionalGet Get bind]. rewrite Hp, Hv. reflexivity.
Qed.

Lemma render_decides_by_truthiness_witness :
  has_variant "Navigating" (VObject [("Navigating"%string, VNumber (of_Z 0))]) = true /\
  render (fun _ => NaN) {| tripState := VObject [("Navigating"%string, VNumber (of_Z 0))] |}
  = Normal None.
Proof.
  apply (render_decides_by_truthiness (fun _ => NaN)
           [("Navigating"%string, VNumber (of_Z 0))] (VNumber (of_Z 0))).
  - reflexivity.
  - right. reflexivity.
Defined.

(** * Further properties of the distance formatter *)

Lemma tenth_half_up_Qfloor_num (x : number) :
  tenth_half_up x = Qfloor (to_Q x / 10 + (1 # 2))%Q.
Proof.
  destruct x as [s|s| |s m e]; try reflexivity. apply tenth_half_up_Qfloor.
Qed.

(** X1.  On its range of exactness the formatter is monotone: a larger
    distance is never shown as a smaller one. *)
Theorem roundToNearestTen_monotone (m1 m2 : number) :
  valid m1 = true -> valid m2 = true ->
  in_range m1 = true -> in_range m2 = true ->
  (to_Q m1 <= to_Q m2)%Q ->
  (to_Q (roundToNearestTen m1) <= to_Q (roundToNearestTen m2))%Q.
Proof.
  intros Hv1 Hv2 Hr1 Hr2 Hle.
  rewrite (to_Q_roundToNearestTen m1 Hv1 Hr1), (to_Q_roundToNearestTen m2 Hv2 Hr2).
  rewrite <- Zle_Qle. apply Z.mul_le_mono_nonneg_l; [lia|].
  rewrite !tenth_half_up_Qfloor_num. apply Qfloor_resp_le.
  apply Qplus_le_l. apply Qmult_le_compat_r; [exact Hle|].
  discriminate.
Qed.

Lemma roundToNearestTen_monotone_witness :
  (to_Q (roundToNearestTen (of_Z 344)) <= to_Q (roundToNearestTen (of_Z 345)))%Q.
Proof.
  apply (roundToNearestTen_monotone (of_Z 344) (of_Z 345));
    try (vm_compute; reflexivity).
  vm_compute. intros H. discriminate H.
Defined.

Lemma int_num_zero_iff (s : bool) (k : Z) :
  Z.abs k <= 10 * 2 ^ 50 -> (2 ^ 53 <= Z.abs k -> Z.even k = true) ->
  ((exists s', int_num s k = S754_zero s') <-> k = 0).
Proof.
  intros Hk Hev. split.
  - intros [s' H]. destruct (Z.eq_dec k 0) as [|Hnz]; auto.
    destruct (int_repr_exists (Z.abs k)) as (m & e & Hr).
    + lia.
    + intros H'. specialize (Hev H'). destruct k; auto.
    + rewrite (int_num_repr s k m e Hr) in H. discriminate H.
  - intros ->. exists s. reflexivity.
Qed.

(** X2.  The formatter shows zero exactly for the finite distances from
    [-5] up to, and not including, [5]. *)
Theorem roundToNearestTen_zero_iff (m : number) :
  valid m = true -> is_finite m = true ->
  ((exists s, roundToNearestTen m = S754_zero s) <-> (-5 <= to_Q m /\ to_Q m < 5)%Q).
Proof.
  intros Hv Hf. destruct m as [s|s| |s M E]; try discriminate Hf.
  - split.
    + intros _. split; [discriminate|reflexivity].
    + intros _. exists s. apply roundToNearestTen_zero.
  - rewrite to_Q_frac.
    pose proof (pow2_pos (Z.max (- E) 0) ltac:(lia)) as Hd.
    pose proof (pow2_pos (Z.max E 0) ltac:(lia)) as Hn.
    unfold Qle, Qlt. cbn [Qnum Qden]. rewrite Z2Pos.id by assumption.
    destruct (in_range (S754_finite s M E)) eqn:Hr.
    + destruct (roundToNearestTen_in_range _ Hv Hr) as [-> HK].
      change (2 ^ 50) with 1125899906842624 in HK.
      rewrite int_num_zero_iff.
      * unfold tenth_half_up.
        set (a := cond_Zopp s (Zpos M * 2 ^ Z.max E 0)).
        set (d := 2 ^ Z.max (- E) 0) in *.
        pose proof (Z.div_mod (2 * a + 10 * d) (20 * d) ltac:(lia)) as Hdm.
        pose proof (Z.mod_pos_bound (2 * a + 10 * d) (20 * d) ltac:(lia)) as Hmb.
        split; intros H; nia.
      * change (10 * 2 ^ 50) with 11258999068426240. lia.
      * intros _. rewrite Z.even_mul. reflexivity.
    + pose proof (out_of_range_finite s M E Hr) as HE.
      pose proof (bounded_normal M E Hv ltac:(lia)) as [_ HM].
      change (2 ^ 52) with 4503599627370496 in HM.
      rewrite (Z.max_l E 0), (Z.max_r (- E) 0) in * by lia.
      change (2 ^ 0) with 1 in *.
      assert (2 ^ 1 <= 2 ^ E) as Hp by (apply Z.pow_le_mono_r; lia).
      change (2 ^ 1) with 2 in Hp.
      split.
      * intros [s' H].
        destruct (roundToNearestTen_large s M E Hv HE) as [H' | (m & e & H')];
          rewrite H' in H; discriminate H.
      * intros [H1 H2]. destruct s; cbn [cond_Zopp] in H1, H2; nia.
Qed.

Lemma roundToNearestTen_zero_iff_witness :
  (exists s, roundToNearestTen (of_Z 4) = S754_zero s) <->
  (-5 <= to_Q (of_Z 4) /\ to_Q (of_Z 4) < 5)%Q.
Proof.
  apply (roundToNearestTen_zero_iff (of_Z 4)); vm_compute; reflexivity.
Defined.

(** X3.  On an integer number of metres the formatter computes
    [10 * floor ((n + 5) / 10)], a zero result carrying the sign of [n]. *)
Theorem roundToNearestTen_integer (n : Z) :
  - 9007199254740992 < n < 9007199254740992 ->
  roundToNearestTen (of_Z n) = int_num (n <? 0) (10 * ((n + 5) / 10)).
Proof.
  intros Hn. destruct (Z.eq_dec n 0) as [->|Hnz]; [reflexivity|].
  pose proof (roundToNearestTen_int false (n <? 0) (Z.abs n)) as H.
  assert (cond_Zopp (n <? 0) (Z.abs n) = n) as Hc.
  { destruct (Z.ltb_spec n 0); cbn [cond_Zopp]; lia. }
  rewrite Hc in H. unfold of_Z. rewrite H.
  - f_equal. f_equal. replace (2 * n + 10) with (2 * (n + 5)) by ring.
    change 20 with (2 * 10). apply Z.div_mul_cancel_l; lia.
  - change (10 * 2 ^ 50) with 11258999068426240. lia.
  - change (2 ^ 53) with 9007199254740992. lia.
Qed.

Lemma roundToNearestTen_integer_witness :
  roundToNearestTen (of_Z (-347)) = int_num true (10 * ((-347 + 5) / 10)).
Proof.
  apply (roundToNearestTen_integer (-347)). lia.
Defined.

(** X4.  Every multiple of ten below [10 * 2^50] in magnitude is a fixed
    point of the formatter. *)
Theorem roundToNearestTen_multiple_of_ten (k : Z) :
  - 1125899906842624 < k < 1125899906842624 ->
  roundToNearestTen (of_Z (10 * k)) = of_Z (10 * k).
Proof.
  intros Hk. destruct (Z.eq_dec k 0) as [->|Hnz]; [reflexivity|].
  pose proof (roundToNearestTen_int false (k <? 0) (10 * Z.abs k)) as H.
  assert (cond_Zopp (k <? 0) (10 * Z.abs k) = 10 * k) as Hc.
  { destruct (Z.ltb_spec k 0); cbn [cond_Zopp]; lia. }
  rewrite Hc in H. unfold of_Z. rewrite H.
  - replace ((2 * (10 * k) + 10) / 20) with k.
    + apply int_num_nonzero. lia.
    + apply (Z.div_unique_pos _ _ k 10); lia.
  - change (10 * 2 ^ 50) with 11258999068426240. lia.
  - intros _. rewrite Z.even_mul. reflexivity.
Qed.

Lemma roundToNearestTen_multiple_of_ten_witness :
  roundToNearestTen (of_Z (10 * 35)) = of_Z (10 * 35).
Proof.
  apply (roundToNearestTen_multiple_of_ten 35). lia.
Defined.

(** X5.  A distance that is not finite, [NaN] or an infinity, comes back
    unchanged. *)
Theorem roundToNearestTen_not_finite (m : number) :
  is_finite m = false -> roundToNearestTen m = m.
Proof.
  intros H. destruct m as [s|s| |s M E]; try discriminate H.
  - destruct s; reflexivity.
  - reflexivity.
Qed.

Lemma roundToNearestTen_not_finite_witness :
  roundToNearestTen (S754_infinity true) = S754_infinity true.
Proof.
  apply (roundToNearestTen_not_finite (S754_infinity true)). reflexivity.
Defined.

Lemma SFopp_int_num (s : bool) (k : Z) :
  Z.abs k <= 10 * 2 ^ 50 -> (2 ^ 53 <= Z.abs k -> Z.even k = true) ->
  SFopp (int_num s k) = int_num (negb s) (- k).
Proof.
  intros Hk Hev. destruct (Z.eq_dec k 0) as [->|Hnz]; [reflexivity|].
  destruct (int_repr_exists (Z.abs k)) as (m & e & Hr).
  - lia.
  - intros H. specialize (Hev H). destruct k; auto.
  - rewrite (int_num_repr s k m e Hr).
    rewrite (int_num_repr (negb s) (- k) m e) by (rewrite Z.abs_opp; exact Hr).
    cbn [SFopp]. f_equal.
    destruct (Z.ltb_spec k 0); destruct (Z.ltb_spec (- k) 0); auto; lia.
Qed.

(** X6.  Away from the ties the formatter is odd: on its range of
    exactness, negating a distance that is not an odd multiple of 5
    negates the result.  (At a tie both the distance and its negation are
    rounded toward +Infinity.) *)
Theorem roundToNearestTen_opp (m : number) :
  valid m = true -> in_range m = true ->
  (forall j : Z, ~ (to_Q m == inject_Z (10 * j + 5))%Q) ->
  roundToNearestTen (SFopp m) = SFopp (roundToNearestTen m).
Proof.
  intros Hv Hr Htie. destruct m as [s|s| |s M E]; try discriminate Hr.
  - destruct s; reflexivity.
  - assert (in_range (S754_finite (negb s) M E) = true) as Hr' by exact Hr.
    destruct (roundToNearestTen_in_range _ Hv Hr) as [-> HK].
    cbn [SFopp]. destruct (roundToNearestTen_in_range (S754_finite (negb s) M E) Hv Hr')
      as [-> _].
    cbn [sign]. change (2 ^ 50) with 1125899906842624 in HK.
    rewrite SFopp_int_num.
    + f_equal. replace (- (10 * tenth_half_up (S754_finite s M E)))
        with (10 * - tenth_half_up (S754_finite s M E)) by ring.
      f_equal.
      (* the two floors are opposite unless the tenth plus a half is an integer *)
      assert (forall j, cond_Zopp s (Zpos M * 2 ^ Z.max E 0)
                        <> (10 * j + 5) * 2 ^ Z.max (- E) 0) as Hz.
      { intros j Hj. apply (Htie j). rewrite to_Q_frac.
        pose proof (pow2_pos (Z.max (- E) 0) ltac:(lia)) as Hd.
        unfold Qeq, inject_Z. cbn [Qnum Qden]. rewrite Z2Pos.id by assumption. lia. }
      unfold tenth_half_up.
      assert (cond_Zopp (negb s) (Zpos M * 2 ^ Z.max E 0)
              = - cond_Zopp s (Zpos M * 2 ^ Z.max E 0)) as ->
        by (destruct s; cbn [cond_Zopp negb]; lia).
      set (a := cond_Zopp s (Zpos M * 2 ^ Z.max E 0)) in *.
      pose proof (pow2_pos (Z.max (- E) 0) ltac:(lia)) as Hd.
      set (d := 2 ^ Z.max (- E) 0) in *.
      pose proof (Z.div_mod (2 * a + 10 * d) (20 * d) ltac:(lia)) as Hdm.
      pose proof (Z.mod_pos_bound (2 * a + 10 * d) (20 * d) ltac:(lia)) as Hmb.
      set (K := (2 * a + 10 * d) / (20 * d)) in *.
      set (r := (2 * a + 10 * d) mod (20 * d)) in *.
      assert (r <> 0) as Hr0.
      { intros H0. apply (Hz (K - 1)). nia. }
      symmetry. apply (Z.div_unique_pos _ _ (- K) (20 * d - r)); lia.
    + change (10 * 2 ^ 50) with 11258999068426240. lia.
    + intros _. rewrite Z.even_mul. reflexivity.
Qed.

Lemma roundToNearestTen_opp_witness :
  roundToNearestTen (SFopp (of_Z 347)) = SFopp (roundToNearestTen (of_Z 347)).
Proof.
  apply (roundToNearestTen_opp (of_Z 347)); try (vm_compute; reflexivity).
  intros j H.
  assert ((to_Q (of_Z 347) == inject_Z 347)%Q) as E by (vm_compute; reflexivity).
  rewrite E in H. unfold Qeq, inject_Z in H. cbn [Qnum Qden] in H. lia.
Defined.

(** * Further properties of [render] *)

Lemma Get_nullish (v : value) (name : string) :
  is_nullish v = true -> Get v name = Throw TypeError.
Proof. destruct v; try discriminate; reflexivity. Qed.

Lemma OptionalGet_Normal (st : value) (name : string) :
  exists v, OptionalGet st name = Normal v.
Proof. destruct st; cbn [OptionalGet Get]; eauto. Qed.

(** X7.  A truthy [Navigating] payload that lacks [visualInstruction],
    [visualInstruction.primaryContent] or [progress], the property being
    absent, [undefined] or [null], makes [render] throw a [TypeError]; it
    does not render nothing.  A truthy primitive payload is such a
    payload. *)
Theorem render_throws_on_missing_part
  (StringToNumber : string -> number) (st nav vi p : value) :
  OptionalGet st "Navigating" = Normal nav ->
  ToBoolean nav = true ->
  Get nav "visualInstruction" = Normal vi ->
  Get nav "progress" = Normal p ->
  is_nullish vi = true \/
  (exists pc, Get vi "primaryContent" = Normal pc /\ is_nullish pc = true) \/
  is_nullish p = true ->
  render StringToNumber {| tripState := st |} = Throw TypeError.
Proof.
  intros Hnav Ht Hvi Hp Hmiss.
  pose proof (OptionalGet_truthy st nav Hnav Ht) as Hget.
  unfold render. cbn [tripState].
  rewrite Hnav. cbn [bind]. rewrite Ht, Hget. cbn [bind].
  rewrite Hvi. cbn [bind].
  destruct (Get vi "primaryContent") as [pc|e] eqn:Hpc; cbn [bind].
  - destruct (Get pc "text") as [text|e] eqn:Htext; cbn [bind].
    + rewrite Hp. cbn [bind].
      destruct Hmiss as [H | [(pc' & Hpc' & H) | H]].
      * rewrite (Get_nullish vi _ H) in Hpc. discriminate Hpc.
      * injection Hpc' as <-.
        rewrite (Get_nullish pc _ H) in Htext. discriminate Htext.
      * rewrite (Get_nullish p _ H). reflexivity.
    + destruct e. reflexivity.
  - destruct e. reflexivity.
Qed.

Lemma render_throws_on_missing_part_witness :
  render (fun _ => NaN) {| tripState := VObject [("Navigating"%string, VBoolean true)] |}
  = Throw TypeError.
Proof.
  apply (render_throws_on_missing_part (fun _ => NaN)
           (VObject [("Navigating"%string, VBoolean true)])
           (VBoolean true) VUndefined VUndefined); try reflexivity.
  left. reflexivity.
Defined.

(** X8.  [render] returns nothing exactly when the [Navigating] property
    of the trip state is falsy: with a truthy one it returns a template or
    throws. *)
Theorem render_nothing_iff_falsy
  (StringToNumber : string -> number) (st nav : value) :
  OptionalGet st "Navigating" = Normal nav ->
  (render StringToNumber {| tripState := st |} = Normal None <-> ToBoolean nav = false).
Proof.
  intros Hnav. unfold render. cbn [tripState]. rewrite Hnav. cbn [bind].
  destruct (ToBoolean nav); split; intros H; try reflexivity; try discriminate H.
  exfalso. revert H.
  destruct (n <- Get st "Navigating";; Get n "visualInstruction") as [vi|e];
    cbn [bind]; [|discriminate].
  destruct (n <- Get st "Navigating";; v <- Get n "visualInstruction";;
            c <- Get v "primaryContent";; Get c "text") as [text|e];
    cbn [bind]; [|discriminate].
  destruct (n <- Get st "Navigating";; p <- Get n "progress";;
            d <- Get p "distanceToNextManeuver";;
            meters <- ToNumber StringToNumber d;; Normal (roundToNearestTen meters))
    as [dist|e]; cbn [bind]; discriminate.
Qed.

Lemma render_nothing_iff_falsy_witness :
  render (fun _ => NaN) {| tripState := VString "Idle" |} = Normal None <->
  ToBoolean VUndefined = false.
Proof.
  apply (render_nothing_iff_falsy (fun _ => NaN) (VString "Idle") VUndefined).
  reflexivity.
Defined.

(** X9.  Whenever [render] returns a template, its three bindings are the
    payload's [visualInstruction], that value's [primaryContent.text] and
    the formatted [progress.distanceToNextManeuver] of a truthy
    [Navigating] property. *)
Theorem render_template_inversion
  (StringToNumber : string -> number) (st : value) (t : TemplateResult) :
  render StringToNumber {| tripState := st |} = Normal (Some t) ->
  exists nav pc p d meters,
    Get st "Navigating" = Normal nav /\
    ToBoolean nav = true /\
    Get nav "visualInstruction" = Normal (visualInstruction t) /\
    Get (visualInstruction t) "primaryContent" = Normal pc /\
    Get pc "text" = Normal (instruction t) /\
    Get nav "progress" = Normal p /\
    Get p "distanceToNextManeuver" = Normal d /\
    ToNumber StringToNumber d = Normal meters /\
    distance t = roundToNearestTen meters.
Proof.
  unfold render. cbn [tripState].
  destruct (OptionalGet_Normal st "Navigating") as [nav Hnav]. rewrite Hnav. cbn [bind].
  destruct (ToBoolean nav) eqn:Ht; [|discriminate].
  rewrite (OptionalGet_truthy st nav Hnav Ht). cbn [bind].
  destruct (Get nav "visualInstruction") as [vi|e] eqn:Hvi; cbn [bind]; [|discriminate].
  destruct (Get vi "primaryContent") as [pc|e] eqn:Hpc; cbn [bind]; [|discriminate].
  destruct (Get pc "text") as [text|e] eqn:Htext; cbn [bind]; [|discriminate].
  destruct (Get nav "progress") as [p|e] eqn:Hp; cbn [bind]; [|discriminate].
  destruct (Get p "distanceToNextManeuver") as [d|e] eqn:Hd; cbn [bind]; [|discriminate].
  destruct (ToNumber StringToNumber d) as [meters|e] eqn:Hm; cbn [bind]; [|discriminate].
  intros H. injection H as <-. cbn [visualInstruction instruction distance].
  exists nav, pc, p, d, meters. repeat split; auto.
Qed.

Lemma render_template_inversion_witness :
  exists nav pc p d meters,
    Get turn_right_state "Navigating" = Normal nav /\
    ToBoolean nav = true /\
    Get nav "visualInstruction" = Normal turn_right_instruction /\
    Get turn_right_instruction "primaryContent" = Normal pc /\
    Get pc "text" = Normal (VString "Turn right") /\
    Get nav "progress" = Normal p /\
    Get p "distanceToNextManeuver" = Normal d /\
    ToNumber (fun _ => NaN) d = Normal meters /\
    of_Z 350 = roundToNearestTen meters.
Proof.
  apply (render_template_inversion (fun _ => NaN) turn_right_state
           {| visualInstruction := turn_right_instruction;
              instruction := VString "Turn right";
              distance := of_Z 350 |}).
  vm_compute. reflexivity.
Defined.

(** X10.  [render] reads nothing of the trip state but its [Navigating]
    property: two states that agree on it render alike, whatever else
    they hold. *)
Theorem render_depends_on_Navigating_only
  (StringToNumber : string -> number) (st1 st2 : value) :
  OptionalGet st1 "Navigating" = OptionalGet st2 "Navigating" ->
  render StringToNumber {| tripState := st1 |} =
  render StringToNumber {| tripState := st2 |}.
Proof.
  intros H. unfold render. cbn [tripState]. rewrite <- H.
  destruct (OptionalGet_Normal st1 "Navigating") as [nav Hnav].
  rewrite Hnav in *. cbn [bind]. destruct (ToBoolean nav) eqn:Ht; [|reflexivity].
  rewrite (OptionalGet_truthy st1 nav Hnav Ht).
  rewrite (OptionalGet_truthy st2 nav (eq_sym H) Ht). reflexivity.
Qed.

Lemma render_depends_on_Navigating_only_witness :
  render (fun _ => NaN) {| tripState := VObject [("Idle"%string, VObject [])] |} =
  render (fun _ => NaN) {| tripState := VNull |}.
Proof.
  apply (render_depends_on_Navigating_only (fun _ => NaN)
           (VObject [("Idle"%string, VObject [])]) VNull).
  reflexivity.
Defined.

(** X11.  Missing leaves do not throw: when the payload has
    [visualInstruction.primaryContent] and [progress] but neither [text]
    nor [distanceToNextManeuver], the template shows [undefined] as the
    text and [NaN] as the distance. *)
Theorem render_missing_leaves
  (StringToNumber : string -> number) (st nav vi pc p : value) :
  OptionalGet st "Navigating" = Normal nav ->
  ToBoolean nav = true ->
  Get nav "visualInstruction" = Normal vi ->
  Get vi "primaryContent" = Normal pc ->
  Get pc "text" = Normal VUndefined ->
  Get nav "progress" = Normal p ->
  Get p "distanceToNextManeuver" = Normal VUndefined ->
  render StringToNumber {| tripState := st |} =
  Normal (Some {| visualInstruction := vi; instruction := VUndefined; distance := NaN |}).
Proof.
  intros Hnav Ht Hvi Hpc Htext Hp Hd.
  pose proof (OptionalGet_truthy st nav Hnav Ht) as Hget.
  unfold render. cbn [tripState].
  rewrite Hnav. cbn [bind]. rewrite Ht, Hget. cbn [bind].
  rewrite Hvi. cbn [bind]. rewrite Hpc. cbn [bind]. rewrite Htext. cbn [bind].
  rewrite Hp. cbn [bind]. rewrite Hd. reflexivity.
Qed.

Lemma render_missing_leaves_witness :
  render (fun _ => NaN)
    {| tripState :=
         VObject [("Navigating"%string,
                   VObject [("visualInstruction"%string,
                             VObject [("primaryContent"%string, VObject [])]);
                            ("progress"%string, VObject [])])] |} =
  Normal (Some {| visualInstruction := VObject [("primaryContent"%string, VObject [])];
                  instruction := VUndefined; distance := NaN |}).
Proof.
  apply (render_missing_leaves (fun _ => NaN) _
           (VObject [("visualInstruction"%string,
                      VObject [("primaryContent"%string, VObject [])]);
                     ("progress"%string, VObject [])])
           (VObject [("primaryContent"%string, VObject [])])
           (VObject []) (VObject [])); reflexivity.
Defined.
